(** * City Explorer (game-based-learning): discovery mockup and geo checks

    A shallow embedding of the TypeScript of the repository:

    - [Explore]: the state of the Explore page and its two handlers,
      [handleDiscoveryComplete] and the floating camera button
      (src/pages/Explore.tsx);
    - [Scanner]: the XP formula of the discovery scanner (usage guide,
      "XP Calculation");
    - [LocationService]: [calculateDistance] and [isWithinRange]
      (API integration specification, "GPS Implementation"), and the
      proximity check of the integration example; [Haversine] is the
      textbook formula it is compared with;
    - [Core]: the server side checks and the reward calculator the design
      describes and the repository does not implement, modelled from the
      design text; [Ledger]: the design's discovery ledger with its
      conditional insert, modelled from the design text as well;
    - [ExplorePage]: the rest of the Explore page: the header's counts, the
      user indicator, the progress bar and every click handler, with the
      page as a machine over these events;
    - [Recognition], [CameraService], [ScannerIntegration]: the keyword
      matching and result of [LandmarkRecognitionService], the stream
      handling of [CameraService], and the integration example's
      [initializeServices] (API integration specification).

    JavaScript numbers that carry measurements (coordinates, distances,
    experience points, confidence) are read as real numbers, and
    [Math.sin], [Math.cos], [Math.sqrt] and [Math.atan2] as the real
    functions; the value of [Math.random()] is a rational; identifiers,
    pixel positions and clock readings are integers.  The theorems about
    [calculateDistance] and the XP formula are those that hold of the
    floating-point computation as well, exactly or up to rounding; what
    holds in exact arithmetic only (the identity with the arcsine form of
    the haversine formula, the bounds that follow from it) is kept in
    lemmas, and used only for statements that the floating-point
    computation satisfies too. *)

From Stdlib Require Import ZArith QArith Qround Reals Lra Lia List String Bool.
From stdpp Require Import base option gmap strings.
Import ListNotations.

(** ** Explore page (src/pages/Explore.tsx) *)

Module Explore.

Local Open Scope Z_scope.

(** [interface Landmark] of the page. *)
Record Landmark := mkLandmark {
  id : Z;
  name : string;
  x : Z;
  y : Z;
  discovered : bool;
  category : string;
  year : string;
  metersAway : Z
}.

(** The [useState] cells of [WatercolorAtlasExplore]. *)
Record State := mkState {
  selectedLandmark : option Landmark;
  showScanner : bool;
  landmarkToScan : option Landmark;
  showDetail : bool;
  landmarkToShow : option Landmark;
  showMuseum : bool;
  landmarks : list Landmark
}.

(** The initial value of the [landmarks] cell. *)
Definition initialLandmarks : list Landmark :=
  [ mkLandmark 1 "Nidaros Cathedral" 10 50 true "Historic" "1070" 100;
    mkLandmark 2 "Kristiansten Fortress" 89 45 true "Military" "1681" 300;
    mkLandmark 3 "Old Town Bridge" 62 14 false "Architecture" "1861" 50;
    mkLandmark 4 "Rockheim Museum" 30 60 false "Culture" "2010" 125;
    mkLandmark 5 "Stiftsgården" 7 39 false "Royal" "1778" 500 ].

Definition initialState : State :=
  mkState None false None false None false initialLandmarks.

(** [{ ...landmark, discovered: true }] *)
Definition setDiscovered (l : Landmark) : Landmark :=
  mkLandmark (id l) (name l) (x l) (y l) true (category l) (year l)
             (metersAway l).

(** The updater passed to [setLandmarks]:
    [prev.map(l => l.id === landmarkId ? { ...l, discovered: true } : l)]. *)
Definition markDiscovered (landmarkId : Z) (prevLandmarks : list Landmark)
  : list Landmark :=
  List.map (fun landmark =>
              if id landmark =? landmarkId then setDiscovered landmark
              else landmark)
           prevLandmarks.

(** [handleDiscoveryComplete]: the three state updates of one call. *)
Definition handleDiscoveryComplete (landmarkId : Z) (s : State) : State :=
  mkState (selectedLandmark s)
          false
          None
          (showDetail s) (landmarkToShow s) (showMuseum s)
          (markDiscovered landmarkId (landmarks s)).

(** [launchScanner] *)
Definition launchScanner (landmark : Landmark) (s : State) : State :=
  mkState None
          true
          (Some landmark)
          (showDetail s) (landmarkToShow s) (showMuseum s)
          (landmarks s).

(** [landmarks.find(l => !l.discovered)] *)
Definition firstUndiscovered (ls : list Landmark) : option Landmark :=
  List.find (fun l => negb (discovered l)) ls.

(** [onClick] of the floating AR camera button. *)
Definition floatingCameraClick (s : State) : State :=
  match firstUndiscovered (landmarks s) with
  | Some undiscovered => launchScanner undiscovered s
  | None => s
  end.

(** The scanner modal is rendered under [showScanner && landmarkToScan]. *)
Definition scannerShown (s : State) : bool :=
  showScanner s &&
  match landmarkToScan s with Some _ => true | None => false end.

End Explore.

(** ** Discovery scanner, "XP Calculation" (usage guide) *)

Module Scanner.

(** [Math.floor(Math.random() * 50) + 50], as a function of the value
    [Math.random()] returned (a rational in the half-open interval from
    0 to 1). *)
Definition xp (random : Q) : Z :=
  (Qfloor (random * 50) + 50)%Z.

End Scanner.

(** ** LocationService (API integration specification, "GPS Implementation") *)

Module LocationService.

Local Open Scope R_scope.

(** [Math.atan2(y, x)] on real arguments. *)
Definition atan2 (y x : R) : R :=
  if Rlt_dec 0 x then atan (y / x)
  else if Rlt_dec x 0 then
         (if Rle_dec 0 y then atan (y / x) + PI else atan (y / x) - PI)
       else if Rlt_dec 0 y then PI / 2
            else if Rlt_dec y 0 then - (PI / 2)
                 else 0.

(** [<=] on numbers, as a boolean. *)
Definition Rleb (a b : R) : bool :=
  if Rle_dec a b then true else false.

(** [calculateDistance(lat1, lon1, lat2, lon2)] *)
Definition calculateDistance (lat1 lon1 lat2 lon2 : R) : R :=
  let R := 6371000 in
  let phi1 := lat1 * PI / 180 in
  let phi2 := lat2 * PI / 180 in
  let dphi := (lat2 - lat1) * PI / 180 in
  let dlambda := (lon2 - lon1) * PI / 180 in
  let a := sin (dphi / 2) * sin (dphi / 2) +
           cos phi1 * cos phi2 *
           sin (dlambda / 2) * sin (dlambda / 2) in
  let c := 2 * atan2 (sqrt a) (sqrt (1 - a)) in
  R * c.

(** [isWithinRange(userLat, userLon, landmarkLat, landmarkLon,
    maxDistance = 100)]; [None] is the omitted last argument. *)
Definition isWithinRange (userLat userLon landmarkLat landmarkLon : R)
           (maxDistance : option R) : bool :=
  let maxDistance := default 100 maxDistance in
  let distance :=
    calculateDistance userLat userLon landmarkLat landmarkLon in
  Rleb distance maxDistance.

(** [position.coords] of the browser's [GeolocationPosition]. *)
Record Coords := mkCoords {
  latitude : R;
  longitude : R;
  accuracy : R
}.

(** The fields of the API's [Landmark] model the proximity check reads. *)
Record Landmark := mkLandmark {
  id : Z;
  location_latitude : R;
  location_longitude : R;
  discoveryRadius : R
}.

(** The integration example's
    [const isNearby = locationService.isWithinRange(position.coords.latitude,
    position.coords.longitude, landmark.location.latitude,
    landmark.location.longitude, landmark.discoveryRadius)]. *)
Definition isNearby (coords : Coords) (landmark : Landmark) : bool :=
  isWithinRange (latitude coords) (longitude coords)
                (location_latitude landmark) (location_longitude landmark)
                (Some (discoveryRadius landmark)).

End LocationService.

(** The haversine formula as the design words it: the great-circle distance
    on a sphere of radius 6,371,000 m, [2 r asin (sqrt h)] where [h] is the
    haversine of the central angle. *)
Module Haversine.

Local Open Scope R_scope.

Definition earthRadius : R := 6371000.

Definition rad (deg : R) : R := deg * PI / 180.

(** hav(t) = sin^2(t/2) *)
Definition hav (t : R) : R := (sin (t / 2))².

Definition greatCircle (lat1 lon1 lat2 lon2 : R) : R :=
  let h := hav (rad lat2 - rad lat1) +
           cos (rad lat1) * cos (rad lat2) * hav (rad lon2 - rad lon1) in
  2 * earthRadius * asin (sqrt h).

End Haversine.

(** Claims on the equator, used to try the geo checks: the point at
    [meters] from the origin of coordinates, going east. *)
Module GeoScenario.

Local Open Scope R_scope.

Definition lonAt (meters : R) : R := meters * 180 / (6371000 * PI).

Definition claimAt (meters accuracy : R) : LocationService.Coords :=
  LocationService.mkCoords 0 (lonAt meters) accuracy.

Definition landmarkAtOrigin (radius : R) : LocationService.Landmark :=
  LocationService.mkLandmark 1 0 0 radius.

End GeoScenario.

(** ** Verification core (design sections 3, 4.1 to 4.5, 4.7 and 7)

    The repository holds the client mockup and the type declarations of the
    API; the server that checks a submission and computes rewards is not
    part of it.  The definitions of this module follow the design text. *)

Module Core.

Local Open Scope R_scope.

Inductive Difficulty := easy | medium | hard.

(** The [Landmark] model of the API (Data Models): the fields the core
    reads, with [location.latitude] and [location.longitude] flattened. *)
Record Landmark := mkLandmark {
  id : Z;
  category : string;
  latitude : R;
  longitude : R;
  discoveryRadius : R;
  difficulty : Difficulty;
  xpReward : R
}.

(** Modelled from the spec: the DiscoverySubmission of section 3 (the
    repository declares no such type): user, landmark, claimed location and
    GPS accuracy, recognition confidence, device timestamp, idempotency
    token.  Coordinates are real numbers, so none is non-finite. *)
Record DiscoverySubmission := mkSubmission {
  userId : string;
  landmarkId : Z;
  claimedLatitude : R;
  claimedLongitude : R;
  claimedAccuracy : R;
  confidence : R;
  timestamp : Z;
  idempotencyToken : string
}.

(** Modelled from the spec: the configurable values of sections 4.1 to 4.5,
    absent from the repository.  Times are in seconds, distances in meters,
    speeds in meters per second. *)
Record Config := mkConfig {
  slackFactor : R;
  threshold : Difficulty -> R;
  cooldownPeriod : Z;
  rateWindow : Z;
  rateCap : nat;
  timingTolerance : Z;
  maxSpeed : R;
  firstDiscoveryBonus : R;
  badgeTable : gmap string Z
}.

(** Modelled from the spec: the defaults the design gives (slack 1.0,
    cooldown 30 s, at most 10 submissions in 60 s, tolerance 120 s, 300 km/h,
    bonus 25); it gives none for the recognition thresholds and the badge
    table. *)
Definition defaultConfig (threshold : Difficulty -> R)
  (badgeTable : gmap string Z) : Config :=
  mkConfig 1 threshold 30%Z 60%Z 10%nat 120%Z (300 * 1000 / 3600) 25
           badgeTable.

(** Modelled from the spec: the rejection reasons of section 6. *)
Inductive Reason :=
| too_far | low_confidence | rate_limited | cooldown
| implausible_timing | implausible_travel.

(** Modelled from the spec: the faults of section 7. *)
Inductive Cause := malformed_input | oracle_unavailable | persistence_unavailable.

(** Modelled from the spec: where the checking states of the coordinator
    (section 4.7) end: [Rejected], [Failed], or [AbuseChecked] when every
    check has passed and the submission is accepted for the ledger. *)
Inductive CheckResult :=
| Rejected (reason : Reason)
| Failed (cause : Cause)
| AbuseChecked.

(** *** GeoVerifier (4.1) *)

(** Modelled from the spec: the result of [verify]. *)
Record GeoResult := mkGeoResult {
  isNearby : bool;
  distanceMeters : R
}.

(** Modelled from the spec: [verify(claimedLocation, claimedAccuracy,
    landmark)], absent from the repository: nearby iff the haversine
    distance is at most the discovery radius plus [k] times the claimed
    accuracy. *)
Definition verify (cfg : Config) (lat lon claimedAccuracy : R)
  (landmark : Landmark) : GeoResult :=
  let d := LocationService.calculateDistance
             lat lon (latitude landmark) (longitude landmark) in
  mkGeoResult
    (LocationService.Rleb
       d (discoveryRadius landmark + slackFactor cfg * claimedAccuracy))
    d.

(** *** RecognitionGate (4.2) *)

(** Modelled from the spec: [accepts(confidence, threshold)], absent from
    the repository: the score reaches the threshold. *)
Definition accepts (confidence threshold : R) : bool :=
  LocationService.Rleb threshold confidence.

(** *** AntiAbuseGuard (4.3) *)

(** Modelled from the spec: the per-user state of the guard, absent from
    the repository: the time of the last accepted submission for each
    landmark, the times of the recent accepted submissions, and the place
    and time of the previous accepted discovery. *)
Record UserGuard := mkUserGuard {
  lastSubmissionAt : gmap Z Z;
  recent : list Z;
  lastDiscovery : option (R * R * Z)
}.

(** Modelled from the spec: the guard of a user who has submitted nothing. *)
Definition newUserGuard : UserGuard := mkUserGuard ∅ [] None.

(** Modelled from the spec: rule 1, cooldown:
    [now - lastSubmissionAt < cooldownPeriod] for the same landmark. *)
Definition cooldownRule (cfg : Config) (g : UserGuard) (now : Z)
  (landmark : Z) : bool :=
  match lastSubmissionAt g !! landmark with
  | Some last => (now - last <? cooldownPeriod cfg)%Z
  | None => false
  end.

(** Modelled from the spec: rule 2, rate limit: the submissions of the
    trailing window, this one included, exceed the cap. *)
Definition rateLimitRule (cfg : Config) (g : UserGuard) (now : Z) : bool :=
  (rateCap cfg <?
   S (length (List.filter (fun t => (now - rateWindow cfg <? t)%Z)
                          (recent g))))%nat.

(** Modelled from the spec: rule 3, timing plausibility: the device time is
    further than the tolerance from the server's receipt time. *)
Definition timingRule (cfg : Config) (now deviceTime : Z) : bool :=
  (timingTolerance cfg <? Z.abs (deviceTime - now))%Z.

(** Modelled from the spec: rule 4, teleport detection: the distance from
    the previous accepted discovery, divided by the elapsed time, exceeds
    the maximum speed.  The design does not say what the rule answers when
    no time has elapsed (or the receipt time lies before the previous one);
    the quotient is taken for a positive elapsed time only, and otherwise
    any displacement at all counts as too fast. *)
Definition teleportRule (cfg : Config) (g : UserGuard) (now : Z)
  (lat lon : R) : bool :=
  match lastDiscovery g with
  | Some (lat0, lon0, t0) =>
      let distance := LocationService.calculateDistance lat0 lon0 lat lon in
      if (0 <? now - t0)%Z
      then negb (LocationService.Rleb (distance / IZR (now - t0))
                                      (maxSpeed cfg))
      else negb (LocationService.Rleb distance 0)
  | None => false
  end.

(** Modelled from the spec: the four rules of the guard, evaluated in
    order, first failure wins. *)
Definition guardCheck (cfg : Config) (g : UserGuard) (now : Z)
  (s : DiscoverySubmission) : option Reason :=
  if cooldownRule cfg g now (landmarkId s) then Some cooldown
  else if rateLimitRule cfg g now then Some rate_limited
  else if timingRule cfg now (timestamp s) then Some implausible_timing
  else if teleportRule cfg g now (claimedLatitude s) (claimedLongitude s)
       then Some implausible_travel
  else None.

(** Modelled from the spec: what the guard keeps of an accepted
    submission. *)
Definition noteAccepted (g : UserGuard) (now : Z) (s : DiscoverySubmission)
  : UserGuard :=
  mkUserGuard (<[landmarkId s := now]> (lastSubmissionAt g))
              (now :: recent g)
              (Some (claimedLatitude s, claimedLongitude s, now)).

(** *** DiscoveryCoordinator (4.7), the checking states *)

(** Modelled from the spec: malformed input (section 7), checked by no
    code of the repository: a confidence outside the interval from 0 to 1,
    or a landmark id the catalog does not hold. *)
Definition validate (catalog : gmap Z Landmark) (s : DiscoverySubmission)
  : Cause + Landmark :=
  if Rlt_dec (confidence s) 0 then inl malformed_input
  else if Rlt_dec 1 (confidence s) then inl malformed_input
  else match catalog !! landmarkId s with
       | None => inl malformed_input
       | Some landmark => inr landmark
       end.

(** Modelled from the spec: the coordinator, absent from the repository: a
    submission's way from [Received] through [GeoChecked] and
    [RecognitionChecked] to [AbuseChecked], short-circuit on the first
    failure.  The guard's state changes only when the submission is
    accepted (a rejection mutates no state). *)
Definition checkSubmission (cfg : Config) (catalog : gmap Z Landmark)
  (guards : gmap string UserGuard) (now : Z) (s : DiscoverySubmission)
  : CheckResult * gmap string UserGuard :=
  match validate catalog s with
  | inl cause => (Failed cause, guards)
  | inr landmark =>
      if negb (isNearby (verify cfg (claimedLatitude s) (claimedLongitude s)
                                (claimedAccuracy s) landmark))
      then (Rejected too_far, guards)
      else if negb (accepts (confidence s)
                            (threshold cfg (difficulty landmark)))
      then (Rejected low_confidence, guards)
      else
        let g := default newUserGuard (guards !! userId s) in
        match guardCheck cfg g now s with
        | Some reason => (Rejected reason, guards)
        | None => (AbuseChecked, <[userId s := noteAccepted g now s]> guards)
        end
  end.

(** The same claim sent again: every field but the device time and the
    idempotency token agrees. *)
Definition sameClaim (a b : DiscoverySubmission) : Prop :=
  userId b = userId a /\ landmarkId b = landmarkId a /\
  claimedLatitude b = claimedLatitude a /\
  claimedLongitude b = claimedLongitude a /\
  claimedAccuracy b = claimedAccuracy a /\
  confidence b = confidence a.

(** *** RewardCalculator (4.5) *)

(** Modelled from the spec: the level curve, computed by no code of the
    repository; the one the design gives: [floor(sqrt(totalXp / 100)) + 1]. *)
Definition levelOf (totalXp : R) : Z :=
  (Zfloor (sqrt (totalXp / 100)) + 1)%Z.

(** Modelled from the spec: the other curve the design allows, an explicit
    threshold table: one level more for every threshold reached. *)
Definition levelOfTable (thresholds : list R) (totalXp : R) : Z :=
  (Z.of_nat (length (List.filter (fun t => LocationService.Rleb t totalXp)
                                 thresholds)) + 1)%Z.

(** The [UserProgress] model of the API (Data Models), the fields the
    calculator writes; [level] is a stored field there. *)
Record UserProgress := mkUserProgress {
  totalXp : R;
  level : Z;
  badges : gset Z;
  streakDays : Z;
  lastDiscoveryDate : option Z
}.

(** Modelled from the spec: the progress of a user with no discovery. *)
Definition newUserProgress : UserProgress :=
  mkUserProgress 0 1%Z ∅ 0%Z None.

(** Modelled from the spec: the difficulty multiplier, easy 1.0, medium
    1.5, hard 2.0. *)
Definition multiplier (d : Difficulty) : R :=
  match d with easy => 1 | medium => 3 / 2 | hard => 2 end.

(** Modelled from the spec: the XP delta: the landmark's reward times the
    multiplier, plus the flat bonus of a first global discovery. *)
Definition xpDeltaOf (cfg : Config) (landmark : Landmark)
  (isFirstGlobalDiscovery : bool) : R :=
  xpReward landmark * multiplier (difficulty landmark) +
  (if isFirstGlobalDiscovery then firstDiscoveryBonus cfg else 0).

(** Modelled from the spec: the calendar day of a time in seconds. *)
Definition dayOf (t : Z) : Z := (t / 86400)%Z.

(** Modelled from the spec: the streak counter: one more on the day after
    the last discovery, unchanged on the same day, 1 otherwise. *)
Definition nextStreak (p : UserProgress) (discoveredAt : Z) : Z :=
  match lastDiscoveryDate p with
  | None => 1%Z
  | Some last =>
      if (dayOf discoveredAt =? dayOf last)%Z then streakDays p
      else if (dayOf discoveredAt =? dayOf last + 1)%Z
           then (streakDays p + 1)%Z
           else 1%Z
  end.

(** Modelled from the spec: the deltas [apply] reports. *)
Record RewardResult := mkRewardResult {
  xpDelta : R;
  leveledUp : bool;
  newLevel : option Z;
  badgesAwarded : list Z
}.

(** Modelled from the spec: [apply(userProgress, landmark,
    isFirstGlobalDiscovery)], absent from the repository, for a discovery
    made at [discoveredAt]: the new progress and the reported deltas.  The
    level is recomputed from the new total; the badge of the landmark's
    category is awarded once. *)
Definition apply (cfg : Config) (p : UserProgress) (landmark : Landmark)
  (isFirstGlobalDiscovery : bool) (discoveredAt : Z)
  : UserProgress * RewardResult :=
  let delta := xpDeltaOf cfg landmark isFirstGlobalDiscovery in
  let total := totalXp p + delta in
  let before := levelOf (totalXp p) in
  let after := levelOf total in
  let up := (before <? after)%Z in
  let awarded :=
    match badgeTable cfg !! category landmark with
    | Some b => if decide (b ∈ badges p) then [] else [b]
    | None => []
    end in
  (mkUserProgress total after (badges p ∪ list_to_set awarded)
                  (nextStreak p discoveredAt) (Some discoveredAt),
   mkRewardResult delta up (if up then Some after else None) awarded).

(** Modelled from the spec: the progress of a user after a sequence of
    validated discoveries, each applied in turn. *)
Fixpoint progressAfter (cfg : Config) (p : UserProgress)
  (events : list (Landmark * bool * Z)) : UserProgress :=
  match events with
  | [] => p
  | (landmark, isFirst, discoveredAt) :: rest =>
      progressAfter cfg (fst (apply cfg p landmark isFirst discoveredAt)) rest
  end.

End Core.

(** A catalog of one landmark and one user's claim made on the spot, used
    to try the checks. *)
Module CoreScenario.

Local Open Scope R_scope.

Definition config : Core.Config := Core.defaultConfig (fun _ => 1 / 2) ∅.

Definition bridge : Core.Landmark :=
  Core.mkLandmark 3 "Architecture" 0 0 100 Core.easy 50.

Definition catalog : gmap Z Core.Landmark := {[ 3%Z := bridge ]}.

Definition claim (confidence : R) (timestamp : Z) : Core.DiscoverySubmission :=
  Core.mkSubmission "ada" 3 0 0 5 confidence timestamp "token-1".

Definition afterFirst : gmap string Core.UserGuard :=
  <[ "ada" := Core.noteAccepted Core.newUserGuard 1000 (claim (9 / 10) 1000) ]> ∅.

End CoreScenario.

(** ** Discovery ledger (design, sections 3, 4.4 and 5) *)

Module Ledger.















End Ledger.

(** Three callers racing for one pair: the claim of [CoreScenario] received
    twice at 1000 and once more at 1001. *)
Module LedgerScenario.

Local Open Scope R_scope.



End LedgerScenario.

(** ** Explore page: the rest of the component (src/pages/Explore.tsx) *)

Module ExplorePage.

Import Explore.
Local Open Scope Z_scope.

(** [landmarks.filter(l => l.discovered).length] *)
Definition discoveredCount (s : State) : nat :=
  length (List.filter discovered (landmarks s)).

(** [landmarks.length] *)
Definition totalCount (s : State) : nat := length (landmarks s).

(** [landmarks.find(l => l.name === 'Old Town Bridge')] *)
Definition oldBridge (s : State) : option Landmark :=
  List.find (fun l => String.eqb (name l) "Old Town Bridge") (landmarks s).

(** [oldBridge ? oldBridge.x + 6 : 50] *)
Definition userX (s : State) : Z :=
  match oldBridge s with Some b => x b + 6 | None => 50 end.

(** [oldBridge ? oldBridge.y + 2 : 50] *)
Definition userY (s : State) : Z :=
  match oldBridge s with Some b => y b + 2 | None => 50 end.

(** The width of the progress bar, [(discoveredCount / totalCount) * 100],
    in percent; [None] is the NaN of 0 / 0 on an empty list. *)
Definition progressWidth (s : State) : option Q :=
  match totalCount s with
  | O => None
  | S _ =>
      Some (inject_Z (Z.of_nat (discoveredCount s)) /
            inject_Z (Z.of_nat (totalCount s)) * 100)%Q
  end.

(** A pin's [onClick={() => setSelectedLandmark(landmark)}] *)
Definition selectLandmark (landmark : Landmark) (s : State) : State :=
  mkState (Some landmark) (showScanner s) (landmarkToScan s)
          (showDetail s) (landmarkToShow s) (showMuseum s) (landmarks s).

(** The card's close button, [setSelectedLandmark(null)]. *)
Definition closeCard (s : State) : State :=
  mkState None (showScanner s) (landmarkToScan s)
          (showDetail s) (landmarkToShow s) (showMuseum s) (landmarks s).

(** "Learn More": [setLandmarkToShow(selectedLandmark); setShowDetail(true)];
    the button is rendered for a selected landmark that is discovered. *)
Definition learnMore (s : State) : State :=
  match selectedLandmark s with
  | Some l =>
      if discovered l
      then mkState (selectedLandmark s) (showScanner s) (landmarkToScan s)
                   true (Some l) (showMuseum s) (landmarks s)
      else s
  | None => s
  end.

(** "Scan to Discover": [launchScanner(selectedLandmark)]; the button is
    rendered for a selected landmark that is not discovered. *)
Definition scanToDiscover (s : State) : State :=
  match selectedLandmark s with
  | Some l => if discovered l then s else launchScanner l s
  | None => s
  end.

(** The scanner's [onClose]: [setShowScanner(false); setLandmarkToScan(null)]. *)
Definition scannerClose (s : State) : State :=
  mkState (selectedLandmark s) false None
          (showDetail s) (landmarkToShow s) (showMuseum s) (landmarks s).

(** The detail modal's [onClose]:
    [setShowDetail(false); setLandmarkToShow(null)]. *)
Definition detailClose (s : State) : State :=
  mkState (selectedLandmark s) (showScanner s) (landmarkToScan s)
          false None (showMuseum s) (landmarks s).

(** [setShowMuseum(true)] and the museum's [onClose]. *)
Definition openMuseum (s : State) : State :=
  mkState (selectedLandmark s) (showScanner s) (landmarkToScan s)
          (showDetail s) (landmarkToShow s) true (landmarks s).

Definition closeMuseum (s : State) : State :=
  mkState (selectedLandmark s) (showScanner s) (landmarkToScan s)
          (showDetail s) (landmarkToShow s) false (landmarks s).

(** The detail modal is rendered under [showDetail && landmarkToShow]. *)
Definition detailShown (s : State) : bool :=
  showDetail s &&
  match landmarkToShow s with Some _ => true | None => false end.

(** What can happen to the page: a click on the [i]-th pin, on one of the
    page's buttons, or a callback of the scanner or of a modal. *)
Inductive Event :=
| ClickPin (i : nat)
| CloseCard
| LearnMore
| ScanToDiscover
| FloatingCamera
| ScannerClose
| DiscoveryComplete (landmarkId : Z)
| DetailClose
| OpenMuseum
| CloseMuseum.

Definition handle (e : Event) (s : State) : State :=
  match e with
  | ClickPin i =>
      match nth_error (landmarks s) i with
      | Some landmark => selectLandmark landmark s
      | None => s
      end
  | CloseCard => closeCard s
  | LearnMore => learnMore s
  | ScanToDiscover => scanToDiscover s
  | FloatingCamera => floatingCameraClick s
  | ScannerClose => scannerClose s
  | DiscoveryComplete landmarkId => handleDiscoveryComplete landmarkId s
  | DetailClose => detailClose s
  | OpenMuseum => openMuseum s
  | CloseMuseum => closeMuseum s
  end.

(** The state after a sequence of events, the first one first. *)
Definition run (events : list Event) (s : State) : State :=
  fold_left (fun s e => handle e s) events s.

(** One press of the camera button followed by the scanner's
    [onDiscoveryComplete(landmark.id)] for the landmark it shows. *)
Definition scanNext (s : State) : State :=
  let s1 := floatingCameraClick s in
  match landmarkToScan s1 with
  | Some l => handleDiscoveryComplete (id l) s1
  | None => s1
  end.

(** The modals agree with their flags, the scanner's landmark was picked
    undiscovered and the detail's discovered. *)
Definition consistent (s : State) : Prop :=
  (showScanner s = true <-> landmarkToScan s <> None) /\
  (showDetail s = true <-> landmarkToShow s <> None) /\
  (forall l, landmarkToScan s = Some l -> discovered l = false) /\
  (forall l, landmarkToShow s = Some l -> discovered l = true).

(** The clicks that leave a scanner open with nothing left to discover:
    landmarks 3 and 4 are scanned from the floating button, the pin of
    landmark 5 is clicked while the scanner for it is open (the card takes
    a copy of the landmark with [discovered] false), the scanner completes,
    and "Scan to Discover" on the card launches the scanner for the copy. *)
Definition staleScannerEvents : list Event :=
  [FloatingCamera; DiscoveryComplete 3; FloatingCamera; DiscoveryComplete 4;
   FloatingCamera; ClickPin 4; DiscoveryComplete 5; ScanToDiscover].

Definition staleScanner : State := run staleScannerEvents initialState.

End ExplorePage.

(** ** LandmarkRecognitionService (API integration specification,
    "Using TensorFlow.js") *)

From Stdlib Require Import Ascii.

Module Recognition.

(** [String.prototype.includes]: [sub] occurs somewhere in [s]. *)
Fixpoint includes (s sub : string) : bool :=
  if String.prefix sub s then true
  else match s with
       | EmptyString => false
       | String _ rest => includes rest sub
       end.

(** [String.prototype.split] with a separator of one character. *)
Fixpoint split (sep : ascii) (s : string) : list string :=
  match s with
  | EmptyString => [EmptyString]
  | String c rest =>
      if Ascii.eqb c sep then EmptyString :: split sep rest
      else match split sep rest with
           | word :: words => String c word :: words
           | [] => [String c EmptyString]
           end
  end.

(** [matchesLandmark(prediction, landmarkName)]; [toLowerCase] is the
    string method of that name, taken as a parameter. *)
Definition matchesLandmark (toLowerCase : string -> string)
  (prediction landmarkName : string) : bool :=
  let keywords := split " " (toLowerCase landmarkName) in
  let predictionLower := toLowerCase prediction in
  existsb (fun keyword => includes predictionLower keyword) keywords.

(** An entry of the classifier's result. *)
Record Prediction := mkPrediction {
  className : string;
  probability : Q
}.

(** The object [recognizeLandmark] returns. *)
Record Result := mkResult {
  success : bool;
  confidence : Q;
  predictions : list Prediction
}.

(** [recognizeLandmark(imageElement, expectedLandmark)]: [model] is the
    service's field, [None] before [initialize], afterwards the
    classifier's [classify]; [inl] is the thrown error's message. *)
Definition recognizeLandmark {Image : Type} (toLowerCase : string -> string)
  (model : option (Image -> list Prediction)) (imageElement : Image)
  (expectedLandmark : string) : string + Result :=
  match model with
  | None => inl "Model not initialized"
  | Some classify =>
      let predictions := classify imageElement in
      let found :=
        List.find (fun pred =>
                     matchesLandmark toLowerCase (className pred)
                                     expectedLandmark)
                  predictions in
      inr (mkResult
             (match found with Some _ => true | None => false end)
             (match found with
              | Some m => if Qeq_bool (probability m) 0 then 0%Q
                          else probability m
              | None => 0%Q
              end)
             (firstn 3 predictions))
  end.

(** [toLowerCase] on text without letters outside A to Z, for examples. *)
Definition lowerAscii (c : ascii) : ascii :=
  let n := nat_of_ascii c in
  if ((65 <=? n) && (n <=? 90))%nat then ascii_of_nat (n + 32) else c.

Fixpoint lowerCase (s : string) : string :=
  match s with
  | EmptyString => EmptyString
  | String c rest => String (lowerAscii c) (lowerCase rest)
  end.

End Recognition.

(** ** CameraService (API integration specification, "Camera Access
    Implementation") *)

Module CameraService.

(** What the browser did when [startCamera] asked for the camera:
    [getUserMedia] rejected, or it granted a stream of the given tracks and
    [videoElement.play()] rejected, or the video plays. *)
Inductive Attempt :=
| Denied
| PlayFailed (tracks : list nat)
| Playing (tracks : list nat).

(** The service's [stream] field (the tracks of the stream it holds) and
    the tracks the browser is capturing. *)
Record Camera := mkCamera {
  stream : option (list nat);
  live : gset nat
}.

(** [startCamera(videoElement)]: the flag it returns and the state after.
    The stream is stored before the video is played. *)
Definition startCamera (attempt : Attempt) (c : Camera) : bool * Camera :=
  match attempt with
  | Denied => (false, c)
  | PlayFailed tracks =>
      (false, mkCamera (Some tracks) (live c ∪ list_to_set tracks))
  | Playing tracks =>
      (true, mkCamera (Some tracks) (live c ∪ list_to_set tracks))
  end.

(** [stopCamera()]: every track of the held stream is stopped and the field
    is cleared. *)
Definition stopCamera (c : Camera) : Camera :=
  match stream c with
  | Some tracks => mkCamera None (live c ∖ list_to_set tracks)
  | None => c
  end.

End CameraService.

(** ** Integration example: [initializeServices] (API integration
    specification, "Integration Example in DiscoveryScanner Component") *)

Module ScannerIntegration.

(** [type ScanningState] (usage guide, "State Management"). *)
Inductive ScanningState :=
| initializing | scanning | recognizing | discovered | summary.

(** What the effect touches: the camera service, whether the recognition
    model is loaded, and the component's [scanningState]. *)
Record Services := mkServices {
  camera : CameraService.Camera;
  modelLoaded : bool;
  scanningState : ScanningState
}.

(** [initializeServices()]: start the camera when the video element is
    there (the flag [startCamera] returns is not read), load the model, get
    the position, check the proximity, and only then set the state to
    [scanning].  [modelLoads] is whether [mobilenet.load()] resolves and
    [position] the position [getUserLocation()] resolves to, [None] when it
    rejects; a rejection ends the function where it happens. *)
Definition initializeServices (hasVideo : bool)
  (attempt : CameraService.Attempt) (modelLoads : bool)
  (position : option LocationService.Coords)
  (landmark : LocationService.Landmark) (s : Services) : Services :=
  let camera1 :=
    if hasVideo then snd (CameraService.startCamera attempt (camera s))
    else camera s in
  if negb modelLoads then mkServices camera1 (modelLoaded s) (scanningState s)
  else
    match position with
    | None => mkServices camera1 true (scanningState s)
    | Some coords =>
        if negb (LocationService.isNearby coords landmark)
        then mkServices camera1 true (scanningState s)
        else mkServices camera1 true scanning
    end.

End ScannerIntegration.

(** * Properties *)

(** ** Explore page *)

Section ExploreFacts.

Import Explore.
Local Open Scope Z_scope.

Lemma markDiscovered_length landmarkId ls :
  length (markDiscovered landmarkId ls) = length ls.
Proof. unfold markDiscovered. apply length_map. Qed.

Lemma markDiscovered_lookup landmarkId (ls : list Landmark) i :
  markDiscovered landmarkId ls !! i =
  (fun l => if id l =? landmarkId then setDiscovered l else l) <$> ls !! i.
Proof. unfold markDiscovered. apply list_lookup_fmap. Qed.

Lemma markDiscovered_absent landmarkId ls :
  (forall l, In l ls -> id l <> landmarkId) ->
  markDiscovered landmarkId ls = ls.
Proof.
  induction ls as [|l ls IH]; intros Hno; [reflexivity|].
  cbn [markDiscovered List.map].
  destruct (Z.eqb_spec (id l) landmarkId) as [E|_].
  - exfalso. apply (Hno l); [left; reflexivity | exact E].
  - f_equal. apply IH. intros l' Hin. apply Hno. right. exact Hin.
Qed.

Lemma find_first_undiscovered pre u post :
  Forall (fun l => discovered l = true) pre ->
  discovered u = false ->
  firstUndiscovered (pre ++ u :: post) = Some u.
Proof.
  intros Hpre Hu. unfold firstUndiscovered.
  induction Hpre as [|l pre Hl _ IH]; cbn [app List.find].
  - rewrite Hu. reflexivity.
  - rewrite Hl. exact IH.
Qed.

Lemma find_none_all_discovered ls :
  Forall (fun l => discovered l = true) ls ->
  firstUndiscovered ls = None.
Proof.
  intros H. unfold firstUndiscovered.
  induction H as [|l ls Hl _ IH]; cbn [List.find]; [reflexivity|].
  rewrite Hl. exact IH.
Qed.

Lemma firstUndiscovered_split ls u :
  firstUndiscovered ls = Some u ->
  exists pre post,
    ls = pre ++ u :: post /\
    Forall (fun l => discovered l = true) pre /\
    discovered u = false.
Proof.
  unfold firstUndiscovered.
  induction ls as [|l ls IH]; cbn [List.find]; [discriminate|].
  destruct (discovered l) eqn:Hl; cbn [negb].
  - intros H. destruct (IH H) as (pre & post & -> & Hpre & Hu).
    exists (l :: pre), post. repeat split; [constructor|]; assumption.
  - intros [= <-]. exists [], ls. repeat split; [constructor | exact Hl].
Qed.

End ExploreFacts.

Section ExploreClaims.

Import Explore.
Local Open Scope Z_scope.

(** C9. [handleDiscoveryComplete landmarkId] keeps the list's length and
    order; at every position, a landmark whose id is [landmarkId] comes out
    with [discovered] true and its name, x, y, category, year and
    metersAway as they were, and a landmark with another id comes out as it
    was; when no landmark of the list has that id the list is unchanged. *)
Theorem handleDiscoveryComplete_frame (landmarkId : Z) (s : State) :
  let after := landmarks (handleDiscoveryComplete landmarkId s) in
  length after = length (landmarks s) /\
  (forall i l,
     landmarks s !! i = Some l ->
     exists l',
       after !! i = Some l' /\
       (id l = landmarkId ->
        discovered l' = true /\ id l' = id l /\ name l' = name l /\
        x l' = x l /\ y l' = y l /\ category l' = category l /\
        year l' = year l /\ metersAway l' = metersAway l) /\
       (id l <> landmarkId -> l' = l)) /\
  ((forall l, In l (landmarks s) -> id l <> landmarkId) ->
   after = landmarks s).
Proof.
  cbn zeta. cbn [handleDiscoveryComplete landmarks].
  split; [apply markDiscovered_length|]. split.
  - intros i l Hl. rewrite markDiscovered_lookup, Hl. cbn [fmap option_fmap option_map].
    destruct (Z.eqb_spec (id l) landmarkId) as [E|NE].
    + exists (setDiscovered l). split; [reflexivity|]. split.
      * intros _. cbn. repeat split; reflexivity.
      * intros NE. contradiction.
    + exists l. split; [reflexivity|]. split.
      * intros E. contradiction.
      * reflexivity.
  - apply markDiscovered_absent.
Qed.

(** The handler on the page's initial landmarks: discovering landmark 3. *)
Example handleDiscoveryComplete_initial :
  map discovered (landmarks (handleDiscoveryComplete 3 initialState)) =
  [true; true; true; false; false].
Proof. reflexivity. Qed.

(** At the page's initial state, the scanner reporting landmark 3: the
    list keeps its five places, Old Town Bridge at position 2 comes out
    discovered with its other fields as they were, and Rockheim Museum at
    position 3, whose id is 4, comes out as it was. *)
Lemma handleDiscoveryComplete_frame_witness :
  length (landmarks (handleDiscoveryComplete 3 initialState)) = 5%nat /\
  (exists l',
     landmarks (handleDiscoveryComplete 3 initialState) !! 2%nat = Some l' /\
     discovered l' = true /\ id l' = 3 /\ name l' = "Old Town Bridge" /\
     x l' = 62 /\ y l' = 14 /\ category l' = "Architecture" /\
     year l' = "1861" /\ metersAway l' = 50) /\
  landmarks (handleDiscoveryComplete 3 initialState) !! 3%nat =
    Some (mkLandmark 4 "Rockheim Museum" 30 60 false "Culture" "2010" 125).
Proof.
  pose proof (handleDiscoveryComplete_frame 3 initialState) as H.
  cbv zeta in H. destruct H as [Hlen [Hpos _]].
  split; [exact Hlen|]. split.
  - destruct (Hpos 2%nat
                (mkLandmark 3 "Old Town Bridge" 62 14 false "Architecture"
                            "1861" 50) eq_refl)
      as (l' & Hl' & Hmatch & _).
    exists l'. split; [exact Hl'|].
    destruct (Hmatch eq_refl) as (Hd & Hi & Hn & Hx & Hy & Hc & Hyr & Hm).
    repeat split; assumption.
  - destruct (Hpos 3%nat
                (mkLandmark 4 "Rockheim Museum" 30 60 false "Culture"
                            "2010" 125) eq_refl)
      as (l' & Hl' & _ & Hother).
    rewrite Hl'. f_equal. apply Hother. cbn. lia.
Defined.

(** C10. A click on the floating camera button launches the scanner for
    the first landmark, in array order, whose [discovered] flag is false:
    the landmark is the scanner's target, the scanner is shown and the
    selection is cleared.  When every landmark is discovered the click
    changes nothing: the state is as it was, so the click opens no scanner,
    and the scanner is shown after the click exactly when it was shown
    before it, with the landmark it had. *)
Theorem floatingCameraClick_spec (s : State) :
  (forall pre u post,
     landmarks s = pre ++ u :: post ->
     Forall (fun l => discovered l = true) pre ->
     discovered u = false ->
     floatingCameraClick s = launchScanner u s /\
     landmarkToScan (floatingCameraClick s) = Some u /\
     scannerShown (floatingCameraClick s) = true /\
     selectedLandmark (floatingCameraClick s) = None /\
     landmarks (floatingCameraClick s) = landmarks s) /\
  (Forall (fun l => discovered l = true) (landmarks s) ->
   floatingCameraClick s = s /\
   landmarkToScan (floatingCameraClick s) = landmarkToScan s /\
   scannerShown (floatingCameraClick s) = scannerShown s).
Proof.
  split.
  - intros pre u post Hsplit Hpre Hu.
    assert (E : floatingCameraClick s = launchScanner u s).
    { unfold floatingCameraClick.
      rewrite Hsplit, (find_first_undiscovered pre u post Hpre Hu).
      reflexivity. }
    rewrite E. repeat split; reflexivity.
  - intros Hall.
    assert (E : floatingCameraClick s = s).
    { unfold floatingCameraClick.
      rewrite (find_none_all_discovered _ Hall). reflexivity. }
    rewrite E. repeat split; reflexivity.
Qed.

(** With every landmark discovered the click can leave a scanner on the
    screen.  The state [ExplorePage.staleScanner] is reached from the
    initial state by the page's own events, it is consistent and all of its
    landmarks are discovered; its scanner is shown (for the card's stale
    copy of Stiftsgarden), and it is still shown after the click. *)
Lemma floatingCameraClick_scanner_stays :
  ExplorePage.consistent ExplorePage.staleScanner /\
  Forall (fun l => discovered l = true) (landmarks ExplorePage.staleScanner) /\
  scannerShown ExplorePage.staleScanner = true /\
  scannerShown (floatingCameraClick ExplorePage.staleScanner) = true.
Proof.
  split.
  - unfold ExplorePage.consistent. cbn. repeat split; try congruence.
    + intros l [= <-]. reflexivity.
  - split; [repeat constructor | split; reflexivity].
Qed.

(** Whenever some landmark is undiscovered the click does launch the
    scanner, for a landmark found as C10 says. *)
Lemma floatingCameraClick_launches (s : State) :
  Exists (fun l => discovered l = false) (landmarks s) ->
  exists pre u post,
    landmarks s = pre ++ u :: post /\
    Forall (fun l => discovered l = true) pre /\
    discovered u = false /\
    floatingCameraClick s = launchScanner u s.
Proof.
  intros Hex.
  destruct (firstUndiscovered (landmarks s)) as [u|] eqn:Hf.
  - destruct (firstUndiscovered_split _ _ Hf) as (pre & post & Hs & Hpre & Hu).
    exists pre, u, post. repeat split; try assumption.
    unfold floatingCameraClick. rewrite Hf. reflexivity.
  - exfalso. unfold firstUndiscovered in Hf.
    apply List.Exists_exists in Hex. destruct Hex as (l & Hin & Hl).
    pose proof (find_none _ _ Hf l Hin) as Hn. cbn in Hn.
    rewrite Hl in Hn. discriminate.
Qed.

(** On the initial page the button targets Old Town Bridge (id 3). *)
Example floatingCameraClick_initial :
  option_map id (landmarkToScan (floatingCameraClick initialState)) = Some 3.
Proof. reflexivity. Qed.

Lemma floatingCameraClick_spec_witness :
  floatingCameraClick
    (mkState None false None false None false
             [mkLandmark 1 "a" 0 0 true "c" "y" 5;
              mkLandmark 2 "b" 1 1 false "c" "y" 6;
              mkLandmark 3 "d" 2 2 false "c" "y" 7]) =
  launchScanner (mkLandmark 2 "b" 1 1 false "c" "y" 6)
    (mkState None false None false None false
             [mkLandmark 1 "a" 0 0 true "c" "y" 5;
              mkLandmark 2 "b" 1 1 false "c" "y" 6;
              mkLandmark 3 "d" 2 2 false "c" "y" 7]).
Proof.
  refine (proj1 (proj1 (floatingCameraClick_spec _)
            [mkLandmark 1 "a" 0 0 true "c" "y" 5]
            (mkLandmark 2 "b" 1 1 false "c" "y" 6)
            [mkLandmark 3 "d" 2 2 false "c" "y" 7] _ _ _)).
  - reflexivity.
  - constructor; [reflexivity | constructor].
  - reflexivity.
Defined.

End ExploreClaims.

(** ** Discovery scanner: the XP formula *)

Section ScannerClaims.

Import Scanner.
Local Open Scope Q_scope.

Lemma xp_floor_bounds (random : Q) :
  0 <= random -> random < 1 -> (0 <= Qfloor (random * 50) <= 49)%Z.
Proof.
  intros H0 H1. split.
  - change 0%Z with (Qfloor 0). apply Qfloor_resp_le.
    rewrite <- (Qmult_0_l 50). apply Qmult_le_compat_r; [exact H0 | discriminate].
  - assert (Hlt : inject_Z (Qfloor (random * 50)) < inject_Z 50).
    { apply Qle_lt_trans with (random * 50); [apply Qfloor_le|].
      change (inject_Z 50) with (1 * 50).
      apply Qmult_lt_compat_r; [reflexivity | exact H1]. }
    rewrite <- Zlt_Qlt in Hlt. lia.
Qed.

(** C8. For every value [Math.random()] can return, that is at least 0 and
    less than 1, the formula [Math.floor(Math.random() * 50) + 50] awards
    between 50 and 99 XP: it never awards the 100 the guide's "random
    50-100" promises. *)
Theorem xp_never_100 (random : Q) :
  0 <= random -> random < 1 ->
  (50 <= xp random <= 99)%Z /\ xp random <> 100%Z.
Proof.
  intros H0 H1. unfold xp.
  pose proof (xp_floor_bounds random H0 H1). lia.
Qed.

(** The largest double below 1 is awarded 99 XP. *)
Lemma xp_never_100_witness :
  (50 <= xp (1 - (1 # 9007199254740992)) <= 99)%Z /\
  xp (1 - (1 # 9007199254740992)) <> 100%Z.
Proof.
  apply (xp_never_100 (1 - (1 # 9007199254740992))); vm_compute; congruence.
Defined.

(** Every amount from 50 to 99 is awarded for some draw. *)
Lemma xp_attains (n : Z) :
  (50 <= n <= 99)%Z ->
  exists random, 0 <= random /\ random < 1 /\ xp random = n.
Proof.
  intros Hn. exists (inject_Z (n - 50) / 50). split; [|split].
  - apply Qle_shift_div_l; [reflexivity|]. rewrite Qmult_0_l.
    change 0 with (inject_Z 0). rewrite <- Zle_Qle. lia.
  - apply Qlt_shift_div_r; [reflexivity|]. rewrite Qmult_1_l.
    change 50 with (inject_Z 50). rewrite <- Zlt_Qlt. lia.
  - unfold xp.
    assert (E : inject_Z (n - 50) / 50 * 50 == inject_Z (n - 50)) by (field).
    rewrite E, Qfloor_Z. lia.
Qed.

Example xp_of_zero : xp 0 = 50%Z.
Proof. reflexivity. Qed.

Example xp_of_half : xp (1 # 2) = 75%Z.
Proof. reflexivity. Qed.

End ScannerClaims.

(** ** LocationService: distance and range *)

Section LocationFacts.

Import LocationService.
Local Open Scope R_scope.

Lemma Rleb_true (a b : R) : Rleb a b = true <-> a <= b.
Proof.
  unfold Rleb. destruct (Rle_dec a b); split; intros; try easy.
Qed.

Lemma Rleb_false (a b : R) : Rleb a b = false <-> b < a.
Proof.
  unfold Rleb. destruct (Rle_dec a b); split; intros; try easy; lra.
Qed.

Lemma atan2_pos (y x : R) : 0 < x -> atan2 y x = atan (y / x).
Proof.
  intros Hx. unfold atan2. destruct (Rlt_dec 0 x); [reflexivity | contradiction].
Qed.

Lemma atan2_vertical (y : R) : 0 < y -> atan2 y 0 = PI / 2.
Proof.
  intros Hy. unfold atan2.
  destruct (Rlt_dec 0 0); [lra|].
  destruct (Rlt_dec 0 y); [reflexivity | contradiction].
Qed.

(** The quantity under the square roots is a haversine: it lies between
    0 and 1 whatever the coordinates, so neither root leaves its domain. *)
Lemma haversine_range (p1 p2 l : R) :
  let a := sin ((p2 - p1) / 2) * sin ((p2 - p1) / 2) +
           cos p1 * cos p2 * sin (l / 2) * sin (l / 2) in
  0 <= a <= 1.
Proof.
  cbv zeta.
  assert (Hd : sin ((p2 - p1) / 2) * sin ((p2 - p1) / 2) =
               (1 - (cos p2 * cos p1 + sin p2 * sin p1)) / 2).
  { rewrite <- cos_minus.
    replace (p2 - p1) with (2 * ((p2 - p1) / 2)) at 3 by field.
    rewrite cos_2a_sin. field. }
  rewrite Hd.
  pose proof (sin2_cos2 p1) as H1. pose proof (sin2_cos2 p2) as H2.
  unfold Rsqr in H1, H2.
  pose proof (SIN_bound (l / 2)) as [Hs1 Hs2].
  set (s1 := sin p1) in *. set (c1 := cos p1) in *.
  set (s2 := sin p2) in *. set (c2 := cos p2) in *.
  set (s := sin (l / 2)) in *.
  assert (Ht : 0 <= s * s <= 1) by nra.
  set (w := 1 - 2 * (s * s)).
  assert (Hw : w * w <= 1) by (unfold w; nra).
  assert (HX : (s1 * s2 + c1 * c2 * w) * (s1 * s2 + c1 * c2 * w) <= 1).
  { assert (Hcs : (s1 * s2 + c1 * c2 * w) * (s1 * s2 + c1 * c2 * w) +
                  (s1 * c2 * w - c1 * s2) * (s1 * c2 * w - c1 * s2) =
                  (s1 * s1 + c1 * c1) * (s2 * s2 + c2 * c2 * (w * w))) by ring.
    rewrite H1, Rmult_1_l in Hcs.
    assert (Hc : 0 <= c2 * c2) by nra.
    assert (Hcw : c2 * c2 * (w * w) <= c2 * c2) by nra.
    pose proof (Rle_0_sqr (s1 * c2 * w - c1 * s2)) as Hy. unfold Rsqr in Hy.
    revert Hcs Hcw Hy H2.
    generalize ((s1 * s2 + c1 * c2 * w) * (s1 * s2 + c1 * c2 * w))
               ((s1 * c2 * w - c1 * s2) * (s1 * c2 * w - c1 * s2))
               (c2 * c2 * (w * w)) (c2 * c2) (s2 * s2).
    intros; lra. }
  assert (Ha : (1 - (c2 * c1 + s2 * s1)) / 2 + c1 * c2 * s * s =
               (1 - (s1 * s2 + c1 * c2 * w)) / 2) by (unfold w; field).
  rewrite Ha. nra.
Qed.

Lemma atan2_sqrt_asin (a : R) :
  0 <= a <= 1 -> atan2 (sqrt a) (sqrt (1 - a)) = asin (sqrt a).
Proof.
  intros [H0 H1]. destruct (Req_dec a 1) as [->|Hne].
  - replace (1 - 1) with 0 by ring. rewrite sqrt_0, sqrt_1, asin_1.
    apply atan2_vertical. lra.
  - assert (Hpos : 0 < sqrt (1 - a)) by (apply sqrt_lt_R0; lra).
    rewrite (atan2_pos _ _ Hpos).
    assert (Hs : 0 <= sqrt a < 1).
    { split; [apply sqrt_pos|].
      assert (Ha : 0 <= a < 1) by lra.
      pose proof (sqrt_lt_1_alt a 1 Ha) as Hlt.
      rewrite sqrt_1 in Hlt. exact Hlt. }
    rewrite asin_atan by lra. rewrite (Rsqr_sqrt a H0). reflexivity.
Qed.

(** In exact arithmetic [calculateDistance] is the great-circle distance
    of the haversine formula on the sphere of radius 6,371,000 m: the
    haversine sum lies between 0 and 1, where the two-argument arctangent
    of its roots is the arcsine.  (In floating point the sum can round to
    just above 1 for points that are nearly antipodal; the properties of the
    distance below are those that do not rest on this identity there.) *)
Lemma calculateDistance_haversine (lat1 lon1 lat2 lon2 : R) :
  calculateDistance lat1 lon1 lat2 lon2 =
  Haversine.greatCircle lat1 lon1 lat2 lon2.
Proof.
  unfold calculateDistance, Haversine.greatCircle, Haversine.hav,
    Haversine.rad, Haversine.earthRadius, Rsqr. cbv zeta.
  replace ((lat2 - lat1) * PI / 180 / 2)
    with ((lat2 * PI / 180 - lat1 * PI / 180) / 2) by field.
  replace ((lon2 - lon1) * PI / 180 / 2)
    with ((lon2 * PI / 180 - lon1 * PI / 180) / 2) by field.
  pose proof (haversine_range (lat1 * PI / 180) (lat2 * PI / 180)
                (lon2 * PI / 180 - lon1 * PI / 180)) as Hr.
  cbv zeta in Hr.
  rewrite (atan2_sqrt_asin _ Hr).
  match goal with
  | |- _ * (2 * asin (sqrt ?a)) = 2 * _ * asin (sqrt ?h) =>
      replace h with a by ring
  end.
  ring.
Qed.

Lemma calculateDistance_sym (lat1 lon1 lat2 lon2 : R) :
  calculateDistance lat1 lon1 lat2 lon2 = calculateDistance lat2 lon2 lat1 lon1.
Proof.
  unfold calculateDistance. cbv zeta.
  replace ((lat1 - lat2) * PI / 180 / 2)
    with (- ((lat2 - lat1) * PI / 180 / 2)) by field.
  replace ((lon1 - lon2) * PI / 180 / 2)
    with (- ((lon2 - lon1) * PI / 180 / 2)) by field.
  rewrite !sin_neg.
  match goal with
  | |- _ * (_ * atan2 (sqrt ?a1) _) = _ * (_ * atan2 (sqrt ?a2) _) =>
      replace a2 with a1 by ring
  end.
  reflexivity.
Qed.

Lemma calculateDistance_same (lat lon : R) :
  calculateDistance lat lon lat lon = 0.
Proof.
  unfold calculateDistance. cbv zeta.
  replace ((lat - lat) * PI / 180 / 2) with 0 by field.
  replace ((lon - lon) * PI / 180 / 2) with 0 by field.
  rewrite sin_0.
  match goal with
  | |- _ * (_ * atan2 (sqrt ?a) _) = _ => replace a with 0 by ring
  end.
  rewrite Rminus_0_r, sqrt_0, sqrt_1, atan2_pos by lra.
  replace (0 / 1) with 0 by field. rewrite atan_0. ring.
Qed.

(** Along the equator the distance is the arc: the point [lonAt d] is [d]
    meters from the origin, up to half the circumference. *)
Lemma calculateDistance_equator (d : R) :
  0 <= d <= 6371000 * PI ->
  calculateDistance 0 (GeoScenario.lonAt d) 0 0 = d.
Proof.
  intros [H0 H1]. pose proof PI_RGT_0 as Hpi.
  rewrite calculateDistance_sym, calculateDistance_haversine.
  unfold Haversine.greatCircle, Haversine.hav, Haversine.rad,
    Haversine.earthRadius, GeoScenario.lonAt. cbv zeta.
  replace (0 * PI / 180 - 0 * PI / 180) with 0 by field.
  replace (0 * PI / 180) with 0 by field.
  replace (d * 180 / (6371000 * PI) * PI / 180 - 0)
    with (d / 6371000) by (field; lra).
  replace (0 / 2) with 0 by field.
  rewrite sin_0, cos_0.
  assert (Hh : 0 <= d / 6371000 / 2 <= PI / 2).
  { split.
    - apply Rmult_le_pos; [apply Rmult_le_pos|]; lra.
    - apply Rmult_le_reg_r with (2 * 6371000); [lra|].
      replace (d / 6371000 / 2 * (2 * 6371000)) with d by field. lra. }
  assert (Hsin : 0 <= sin (d / 6371000 / 2)).
  { apply sin_ge_0; lra. }
  replace (0² + 1 * 1 * (sin (d / 6371000 / 2))²)
    with ((sin (d / 6371000 / 2))²) by (unfold Rsqr; ring).
  rewrite (sqrt_Rsqr _ Hsin), asin_sin by lra.
  field.
Qed.

End LocationFacts.

Section LocationClaims.

Import LocationService GeoScenario.
Local Open Scope R_scope.


Lemma isNearby_claimAt (d accuracy radius : R) :
  0 <= d <= 6371000 * PI ->
  isNearby (claimAt d accuracy) (landmarkAtOrigin radius) = Rleb d radius.
Proof.
  intros Hd. unfold isNearby, isWithinRange, claimAt, landmarkAtOrigin.
  cbn. rewrite (calculateDistance_equator d Hd). reflexivity.
Qed.

Lemma short_of_half_circumference (d : R) :
  0 <= d <= 1000 -> 0 <= d <= 6371000 * PI.
Proof. pose proof PI2_3_2. lra. Qed.

(** C2, as the code has it.  The range check accepts exactly when the
    distance is at most the maximum it is given: the landmark's discovery
    radius in the proximity check, 100 m when the argument is omitted.  The
    accuracy of the fix plays no part.  With a radius of 100 m a claim 99 m
    away is accepted and claims 150 m and 120 m away are rejected, whatever
    their accuracy. *)
Theorem isNearby_within_radius :
  (forall coords landmark,
     isNearby coords landmark = true <->
     calculateDistance (latitude coords) (longitude coords)
                       (location_latitude landmark)
                       (location_longitude landmark)
     <= discoveryRadius landmark) /\
  (forall userLat userLon landmarkLat landmarkLon,
     isWithinRange userLat userLon landmarkLat landmarkLon None = true <->
     calculateDistance userLat userLon landmarkLat landmarkLon <= 100) /\
  (forall lat lon accuracy accuracy' landmark,
     isNearby (mkCoords lat lon accuracy) landmark =
     isNearby (mkCoords lat lon accuracy') landmark) /\
  (forall accuracy, isNearby (claimAt 99 accuracy) (landmarkAtOrigin 100) = true) /\
  (forall accuracy, isNearby (claimAt 150 accuracy) (landmarkAtOrigin 100) = false) /\
  (forall accuracy, isNearby (claimAt 120 accuracy) (landmarkAtOrigin 100) = false).
Proof.
  split; [|split; [|split; [|split; [|split]]]].
  - intros coords landmark. unfold isNearby, isWithinRange. cbn.
    apply Rleb_true.
  - intros. unfold isWithinRange. cbn. apply Rleb_true.
  - reflexivity.
  - intros accuracy.
    rewrite isNearby_claimAt by (apply short_of_half_circumference; lra).
    apply Rleb_true. lra.
  - intros accuracy.
    rewrite isNearby_claimAt by (apply short_of_half_circumference; lra).
    apply Rleb_false. lra.
  - intros accuracy.
    rewrite isNearby_claimAt by (apply short_of_half_circumference; lra).
    apply Rleb_false. lra.
Qed.

(** C2, as stated, fails: a claim 120 m from a landmark of radius 100 m with
    an accuracy of 30 m satisfies [distance <= radius + 1.0 * accuracy] and
    is not nearby. *)
Lemma isNearby_slack_counterexample :
  ~ (forall coords landmark,
       isNearby coords landmark = true <->
       calculateDistance (latitude coords) (longitude coords)
                         (location_latitude landmark)
                         (location_longitude landmark)
       <= discoveryRadius landmark + 1 * accuracy coords).
Proof.
  intros H.
  specialize (H (claimAt 120 30) (landmarkAtOrigin 100)).
  rewrite isNearby_claimAt in H by (apply short_of_half_circumference; lra).
  cbn in H.
  rewrite calculateDistance_equator in H
    by (apply short_of_half_circumference; lra).
  destruct H as [_ H].
  assert (Hle : 120 <= 100 + 1 * 30) by lra.
  apply H in Hle. apply Rleb_true in Hle. lra.
Qed.

End LocationClaims.

(** ** Verification core *)

Section CoreFacts.

Import LocationService Core.
Local Open Scope R_scope.

Lemma level_mono (xp1 xp2 : R) : xp1 <= xp2 -> (levelOf xp1 <= levelOf xp2)%Z.
Proof.
  intros H. unfold levelOf.
  assert (Hs : sqrt (xp1 / 100) <= sqrt (xp2 / 100))
    by (apply sqrt_le_1_alt; lra).
  pose proof (Zfloor_le _ _ Hs). lia.
Qed.

Lemma filter_length_mono {A} (f g : A -> bool) (l : list A) :
  (forall x, f x = true -> g x = true) ->
  (length (List.filter f l) <= length (List.filter g l))%nat.
Proof.
  intros Hfg. induction l as [|x l IH]; cbn [List.filter]; [lia|].
  destruct (f x) eqn:Hf.
  - rewrite (Hfg x Hf). cbn [length]. lia.
  - destruct (g x); cbn [length]; lia.
Qed.

Lemma levelOfTable_mono (thresholds : list R) (xp1 xp2 : R) :
  xp1 <= xp2 ->
  (levelOfTable thresholds xp1 <= levelOfTable thresholds xp2)%Z.
Proof.
  intros H. unfold levelOfTable.
  pose proof (filter_length_mono
                (fun t => Rleb t xp1) (fun t => Rleb t xp2) thresholds) as Hl.
  cbv beta in Hl.
  assert (Hfg : forall t, Rleb t xp1 = true -> Rleb t xp2 = true).
  { intros t Ht. apply Rleb_true in Ht. apply Rleb_true. lra. }
  specialize (Hl Hfg). lia.
Qed.

Lemma level_zero : levelOf 0 = 1%Z.
Proof.
  unfold levelOf. replace (0 / 100) with 0 by field.
  rewrite sqrt_0, (ZfloorZ 0). reflexivity.
Qed.

Lemma level_between (n : Z) (xp : R) :
  (0 <= n)%Z ->
  100 * (IZR n * IZR n) <= xp < 100 * ((IZR n + 1) * (IZR n + 1)) ->
  levelOf xp = (n + 1)%Z.
Proof.
  intros Hn [Hlo Hhi]. unfold levelOf. f_equal.
  assert (H0 : 0 <= IZR n) by (apply IZR_le; exact Hn).
  apply Zfloor_eq. split.
  - rewrite <- (sqrt_square (IZR n) H0). apply sqrt_le_1_alt. lra.
  - rewrite <- (sqrt_square (IZR n + 1)) by lra.
    apply sqrt_lt_1_alt. split; [|lra].
    assert (0 <= IZR n * IZR n) by nra. lra.
Qed.

Example level_100 : levelOf 100 = 2%Z.
Proof. apply (level_between 1); [lia | lra]. Qed.

Example level_399 : levelOf 399 = 2%Z.
Proof. apply (level_between 1); [lia | lra]. Qed.

Example level_400 : levelOf 400 = 3%Z.
Proof. apply (level_between 2); [lia | lra]. Qed.

Lemma apply_level (cfg : Config) (p : UserProgress) (landmark : Landmark)
  (isFirst : bool) (discoveredAt : Z) :
  level (fst (apply cfg p landmark isFirst discoveredAt)) =
  levelOf (totalXp (fst (apply cfg p landmark isFirst discoveredAt))).
Proof. reflexivity. Qed.

Lemma progressAfter_level (cfg : Config) (events : list (Landmark * bool * Z))
  (p : UserProgress) :
  level p = levelOf (totalXp p) ->
  level (progressAfter cfg p events) =
  levelOf (totalXp (progressAfter cfg p events)).
Proof.
  revert p. induction events as [|[[landmark isFirst] discoveredAt] rest IH];
    intros p Hp; cbn [progressAfter]; [exact Hp|].
  apply IH. apply apply_level.
Qed.

Lemma validate_out_of_range (catalog : gmap Z Landmark)
  (s : DiscoverySubmission) :
  confidence s < 0 \/ 1 < confidence s ->
  validate catalog s = inl malformed_input.
Proof.
  intros H. unfold validate.
  destruct (Rlt_dec (confidence s) 0); [reflexivity|].
  destruct (Rlt_dec 1 (confidence s)); [reflexivity|]. lra.
Qed.

Lemma validate_known (catalog : gmap Z Landmark) (s : DiscoverySubmission)
  (landmark : Landmark) :
  0 <= confidence s <= 1 ->
  catalog !! landmarkId s = Some landmark ->
  validate catalog s = inr landmark.
Proof.
  intros H Hl. unfold validate.
  destruct (Rlt_dec (confidence s) 0); [lra|].
  destruct (Rlt_dec 1 (confidence s)); [lra|].
  rewrite Hl. reflexivity.
Qed.

Lemma validate_sameClaim (catalog : gmap Z Landmark)
  (a b : DiscoverySubmission) :
  sameClaim a b -> validate catalog b = validate catalog a.
Proof.
  intros (_ & Hl & _ & _ & _ & Hc). unfold validate. rewrite Hl, Hc.
  reflexivity.
Qed.

(** What an accepted submission went through. *)
Lemma checkSubmission_accepted (cfg : Config) (catalog : gmap Z Landmark)
  (guards guards' : gmap string UserGuard) (now : Z)
  (s : DiscoverySubmission) :
  checkSubmission cfg catalog guards now s = (AbuseChecked, guards') ->
  exists landmark,
    validate catalog s = inr landmark /\
    isNearby (verify cfg (claimedLatitude s) (claimedLongitude s)
                     (claimedAccuracy s) landmark) = true /\
    accepts (confidence s) (threshold cfg (difficulty landmark)) = true /\
    guardCheck cfg (default newUserGuard (guards !! userId s)) now s = None /\
    guards' = <[userId s :=
                  noteAccepted (default newUserGuard (guards !! userId s))
                               now s]> guards.
Proof.
  unfold checkSubmission.
  destruct (validate catalog s) as [cause|landmark]; [discriminate|].
  destruct (isNearby _) eqn:Hgeo; cbn [negb]; [|discriminate].
  destruct (accepts _ _) eqn:Hrec; cbn [negb]; [|discriminate].
  destruct (guardCheck _ _ _ _) eqn:Hguard; [discriminate|].
  intros [= <-]. exists landmark. repeat split; assumption.
Qed.

(** The result of the guard decides the result of a submission that is
    well-formed, nearby and recognised. *)
Lemma checkSubmission_guarded (cfg : Config) (catalog : gmap Z Landmark)
  (guards : gmap string UserGuard) (now : Z) (s : DiscoverySubmission)
  (landmark : Landmark) :
  validate catalog s = inr landmark ->
  isNearby (verify cfg (claimedLatitude s) (claimedLongitude s)
                   (claimedAccuracy s) landmark) = true ->
  accepts (confidence s) (threshold cfg (difficulty landmark)) = true ->
  checkSubmission cfg catalog guards now s =
  let g := default newUserGuard (guards !! userId s) in
  match guardCheck cfg g now s with
  | Some reason => (Rejected reason, guards)
  | None => (AbuseChecked, <[userId s := noteAccepted g now s]> guards)
  end.
Proof.
  intros Hv Hgeo Hrec. unfold checkSubmission.
  rewrite Hv, Hgeo, Hrec. reflexivity.
Qed.

Lemma guardCheck_cooldown (cfg : Config) (g : UserGuard) (now : Z)
  (s : DiscoverySubmission) :
  guardCheck cfg g now s = Some cooldown <->
  cooldownRule cfg g now (landmarkId s) = true.
Proof.
  unfold guardCheck. destruct (cooldownRule cfg g now (landmarkId s)).
  - split; reflexivity.
  - split; [|discriminate].
    destruct (rateLimitRule cfg g now); [discriminate|].
    destruct (timingRule cfg now (timestamp s)); [discriminate|].
    destruct (teleportRule cfg g now _ _); discriminate.
Qed.

Lemma cooldownRule_spec (cfg : Config) (g : UserGuard) (now landmark : Z) :
  cooldownRule cfg g now landmark = true <->
  exists last,
    lastSubmissionAt g !! landmark = Some last /\
    (now - last < cooldownPeriod cfg)%Z.
Proof.
  unfold cooldownRule. destruct (lastSubmissionAt g !! landmark) as [last|].
  - rewrite Z.ltb_lt. split.
    + intros H. exists last. split; [reflexivity | exact H].
    + intros (last' & [= <-] & H). exact H.
  - split; [discriminate | intros (last & [=] & _)].
Qed.

(** The other ends of the checking states, on the scenario's catalog. *)
Example check_too_far :
  checkSubmission CoreScenario.config CoreScenario.catalog ∅ 1000
    (mkSubmission "ada" 3 0 (GeoScenario.lonAt 150) 5 (9 / 10) 1000 "t") =
  (Rejected too_far, ∅).
Proof.
  unfold checkSubmission.
  rewrite (validate_known _ _ CoreScenario.bridge) by (first [reflexivity | cbn; lra]).
  unfold verify. cbn.
  rewrite calculateDistance_equator by (pose proof PI2_3_2; lra).
  assert (H : Rleb 150 (100 + 1 * 5) = false) by (apply Rleb_false; lra).
  rewrite H. reflexivity.
Qed.

Example check_low_confidence :
  checkSubmission CoreScenario.config CoreScenario.catalog ∅ 1000
                  (CoreScenario.claim (3 / 10) 1000) =
  (Rejected low_confidence, ∅).
Proof.
  unfold checkSubmission.
  rewrite (validate_known _ _ CoreScenario.bridge) by (first [reflexivity | cbn; lra]).
  unfold verify, accepts. cbn. rewrite calculateDistance_same.
  assert (H1 : Rleb 0 (100 + 1 * 5) = true) by (apply Rleb_true; lra).
  assert (H2 : Rleb (1 / 2) (3 / 10) = false) by (apply Rleb_false; lra).
  rewrite H1, H2. reflexivity.
Qed.

Example check_unknown_landmark :
  checkSubmission CoreScenario.config CoreScenario.catalog ∅ 1000
    (mkSubmission "ada" 4 0 0 5 (9 / 10) 1000 "t") =
  (Failed malformed_input, ∅).
Proof.
  unfold checkSubmission, validate. cbn.
  destruct (Rlt_dec (9 / 10) 0); [lra|].
  destruct (Rlt_dec 1 (9 / 10)); [lra|]. reflexivity.
Qed.

(** A first global discovery of the scenario's landmark by a new user:
    50 XP at multiplier 1 plus the bonus of 25, still level 1. *)
Example apply_first_discovery :
  let r := apply CoreScenario.config newUserProgress CoreScenario.bridge
                 true 1000 in
  totalXp (fst r) = 75 /\ level (fst r) = 1%Z /\
  leveledUp (snd r) = false /\ streakDays (fst r) = 1%Z.
Proof.
  cbv zeta.
  assert (Hd : 0 + xpDeltaOf CoreScenario.config CoreScenario.bridge true = 75)
    by (unfold xpDeltaOf; cbn; lra).
  assert (H0 : levelOf 0 = 1%Z) by apply level_zero.
  assert (H75 : levelOf 75 = 1%Z) by (apply (level_between 0); [lia | lra]).
  unfold apply.
  cbn [fst snd totalXp level leveledUp streakDays newUserProgress].
  rewrite Hd, H0, H75. repeat split; reflexivity.
Qed.

End CoreFacts.

Section CoreClaims.

Import LocationService Core.
Local Open Scope R_scope.

(** C4. The level is a monotonic function of the total XP, both for the
    curve [floor(sqrt(totalXp / 100)) + 1] and for any threshold table.
    The reward calculator recomputes the stored level from the new total:
    after [apply] the stored level is the level of the stored total, the
    level stored before has no influence on the result, and the same holds
    of a user's progress after any sequence of discoveries. *)
Theorem level_monotone_recomputed :
  (forall xp1 xp2, xp1 <= xp2 -> (levelOf xp1 <= levelOf xp2)%Z) /\
  (forall thresholds xp1 xp2,
     xp1 <= xp2 ->
     (levelOfTable thresholds xp1 <= levelOfTable thresholds xp2)%Z) /\
  (forall cfg p landmark isFirst discoveredAt stored,
     let p' := fst (apply cfg p landmark isFirst discoveredAt) in
     level p' = levelOf (totalXp p') /\
     apply cfg (mkUserProgress (totalXp p) stored (badges p) (streakDays p)
                               (lastDiscoveryDate p))
           landmark isFirst discoveredAt =
     apply cfg p landmark isFirst discoveredAt) /\
  (forall cfg events,
     let p := progressAfter cfg newUserProgress events in
     level p = levelOf (totalXp p)).
Proof.
  split; [exact level_mono|].
  split; [exact levelOfTable_mono|].
  split.
  - intros. split; reflexivity.
  - intros cfg events. apply progressAfter_level.
    cbn [newUserProgress level totalXp]. symmetry. apply level_zero.
Qed.

Lemma level_monotone_recomputed_witness : (levelOf 150 <= levelOf 450)%Z.
Proof. apply (proj1 level_monotone_recomputed 150 450). lra. Defined.

(** C7. A submission whose confidence is below 0 or above 1 ends in
    [Failed malformed_input] whatever its other fields, the catalog and the
    guard's state are: no rule rejects it, none accepts it with the score
    moved into range, and the guard's state is as it was. *)
Theorem out_of_range_confidence_fails (cfg : Config)
  (catalog : gmap Z Landmark) (guards : gmap string UserGuard) (now : Z)
  (s : DiscoverySubmission) :
  confidence s < 0 \/ 1 < confidence s ->
  checkSubmission cfg catalog guards now s = (Failed malformed_input, guards).
Proof.
  intros H. unfold checkSubmission.
  rewrite (validate_out_of_range catalog s H). reflexivity.
Qed.

(** A score of 1.5 on the spot: clamped to 1 it would pass the threshold
    of one half. *)
Lemma out_of_range_confidence_fails_witness :
  checkSubmission CoreScenario.config CoreScenario.catalog ∅ 1000
                  (CoreScenario.claim (3 / 2) 1000) =
  (Failed malformed_input, ∅).
Proof.
  apply (out_of_range_confidence_fails CoreScenario.config
           CoreScenario.catalog ∅ 1000 (CoreScenario.claim (3 / 2) 1000)).
  right. cbn. lra.
Defined.

(** C6. The guard answers [cooldown] exactly when the user's last accepted
    submission for the same landmark is less than the cooldown period
    back.  With the period at its default of 30 s: after a submission
    accepted at time [t], the same claim sent again at [t + 10] is rejected
    with [cooldown] and changes nothing; sent at [t + 35] it is accepted
    when the rate, timing and teleport rules pass. *)
Theorem cooldown_scenario (cfg : Config) (catalog : gmap Z Landmark)
  (guards guards1 : gmap string UserGuard) (t : Z)
  (s1 s2 : DiscoverySubmission) :
  cooldownPeriod cfg = 30%Z ->
  checkSubmission cfg catalog guards t s1 = (AbuseChecked, guards1) ->
  sameClaim s1 s2 ->
  let g1 := default newUserGuard (guards1 !! userId s2) in
  (forall g now s,
     guardCheck cfg g now s = Some cooldown <->
     exists last,
       lastSubmissionAt g !! landmarkId s = Some last /\
       (now - last < cooldownPeriod cfg)%Z) /\
  checkSubmission cfg catalog guards1 (t + 10) s2 =
    (Rejected cooldown, guards1) /\
  (rateLimitRule cfg g1 (t + 35) = false ->
   timingRule cfg (t + 35) (timestamp s2) = false ->
   teleportRule cfg g1 (t + 35) (claimedLatitude s2) (claimedLongitude s2)
     = false ->
   checkSubmission cfg catalog guards1 (t + 35) s2 =
     (AbuseChecked, <[userId s2 := noteAccepted g1 (t + 35) s2]> guards1)).
Proof.
  intros Hperiod Hfirst Hsame g1.
  split.
  { intros g now s. rewrite guardCheck_cooldown. apply cooldownRule_spec. }
  destruct (checkSubmission_accepted _ _ _ _ _ _ Hfirst)
    as (landmark & Hv & Hgeo & Hrec & _ & ->).
  pose proof Hsame as (Hu & Hl & Hlat & Hlon & Hacc & Hc).
  assert (Hv2 : validate catalog s2 = inr landmark)
    by (rewrite (validate_sameClaim catalog s1 s2 Hsame); exact Hv).
  assert (Hgeo2 : isNearby (verify cfg (claimedLatitude s2)
                    (claimedLongitude s2) (claimedAccuracy s2) landmark) = true)
    by (rewrite Hlat, Hlon, Hacc; exact Hgeo).
  assert (Hrec2 : accepts (confidence s2)
                    (threshold cfg (difficulty landmark)) = true)
    by (rewrite Hc; exact Hrec).
  assert (Hlast : lastSubmissionAt g1 !! landmarkId s2 = Some t).
  { subst g1. rewrite Hu, lookup_insert_eq. cbn [default noteAccepted
      lastSubmissionAt]. rewrite Hl. apply lookup_insert_eq. }
  split.
  - rewrite (checkSubmission_guarded _ _ _ _ _ _ Hv2 Hgeo2 Hrec2). cbv zeta.
    fold g1.
    assert (Hcd : guardCheck cfg g1 (t + 10) s2 = Some cooldown).
    { apply guardCheck_cooldown, cooldownRule_spec. exists t.
      split; [exact Hlast | lia]. }
    rewrite Hcd. reflexivity.
  - intros Hrate Htime Htele.
    rewrite (checkSubmission_guarded _ _ _ _ _ _ Hv2 Hgeo2 Hrec2). cbv zeta.
    fold g1.
    assert (Hok : guardCheck cfg g1 (t + 35) s2 = None).
    { unfold guardCheck, cooldownRule. rewrite Hlast, Hperiod.
      replace (t + 35 - t <? 30)%Z with false by (symmetry; apply Z.ltb_ge; lia).
      rewrite Hrate, Htime, Htele. reflexivity. }
    rewrite Hok. reflexivity.
Qed.

Lemma scenario_first_accepted :
  checkSubmission CoreScenario.config CoreScenario.catalog ∅ 1000
                  (CoreScenario.claim (9 / 10) 1000) =
  (AbuseChecked, CoreScenario.afterFirst).
Proof.
  rewrite (checkSubmission_guarded _ _ _ _ _ CoreScenario.bridge).
  - cbv zeta. rewrite lookup_empty. reflexivity.
  - apply validate_known; [cbn; lra | reflexivity].
  - unfold verify. cbn. apply Rleb_true.
    rewrite calculateDistance_same. lra.
  - unfold accepts. cbn. apply Rleb_true. lra.
Qed.

Lemma scenario_guard_after_first :
  default newUserGuard (CoreScenario.afterFirst !! "ada") =
  noteAccepted newUserGuard 1000 (CoreScenario.claim (9 / 10) 1000).
Proof. unfold CoreScenario.afterFirst. rewrite lookup_insert_eq. reflexivity. Qed.

(** The scenario of C6 on the spot: accepted at 1000, sent again at 1010
    and at 1035. *)
Lemma cooldown_scenario_witness :
  checkSubmission CoreScenario.config CoreScenario.catalog
                  CoreScenario.afterFirst (1000 + 10)
                  (CoreScenario.claim (9 / 10) 1010) =
    (Rejected cooldown, CoreScenario.afterFirst) /\
  checkSubmission CoreScenario.config CoreScenario.catalog
                  CoreScenario.afterFirst (1000 + 35)
                  (CoreScenario.claim (9 / 10) 1010) =
    (AbuseChecked,
     <["ada" := noteAccepted
                  (default newUserGuard (CoreScenario.afterFirst !! "ada"))
                  (1000 + 35) (CoreScenario.claim (9 / 10) 1010)]>
       CoreScenario.afterFirst).
Proof.
  destruct (cooldown_scenario CoreScenario.config CoreScenario.catalog ∅
              CoreScenario.afterFirst 1000
              (CoreScenario.claim (9 / 10) 1000)
              (CoreScenario.claim (9 / 10) 1010)
              eq_refl scenario_first_accepted
              (conj eq_refl (conj eq_refl (conj eq_refl (conj eq_refl
                 (conj eq_refl eq_refl))))))
    as (_ & H10 & H35).
  split; [exact H10|]. apply H35.
  - cbn [userId CoreScenario.claim]. rewrite scenario_guard_after_first.
    reflexivity.
  - reflexivity.
  - cbn [userId CoreScenario.claim]. rewrite scenario_guard_after_first.
    unfold teleportRule. cbn [lastDiscovery noteAccepted claimedLatitude
      claimedLongitude CoreScenario.claim]. cbv zeta.
    change (0 <? 1000 + 35 - 1000)%Z with true. cbv iota.
    rewrite calculateDistance_same.
    assert (H : Rleb (0 / IZR (1000 + 35 - 1000))
                     (maxSpeed CoreScenario.config) = true).
    { apply Rleb_true. cbn [maxSpeed CoreScenario.config defaultConfig].
      unfold Rdiv at 1. rewrite Rmult_0_l. lra. }
    rewrite H. reflexivity.
Defined.

End CoreClaims.

(** ** The ledger: uniqueness and the race for one pair *)

Section LedgerFacts.

Import Ledger.

















End LedgerFacts.

(** ** Explore page: counts, events and invariants *)

Section ExplorePageFacts.

Import Explore ExplorePage.
Local Open Scope Z_scope.

Lemma setDiscovered_discovered (l : Landmark) :
  discovered l = true -> setDiscovered l = l.
Proof. destruct l as [i n px py d c yr m]. cbn. intros ->. reflexivity. Qed.

Lemma markDiscovered_static (i : Z) (ls : list Landmark) :
  List.map setDiscovered (markDiscovered i ls) = List.map setDiscovered ls.
Proof.
  unfold markDiscovered. rewrite List.map_map. apply List.map_ext.
  intros l. destruct (id l =? i); reflexivity.
Qed.

Lemma markDiscovered_flags (i : Z) (ls : list Landmark) :
  Forall2 (fun a b => discovered a = true -> discovered b = true)
          ls (markDiscovered i ls).
Proof.
  induction ls as [|l ls IH]; cbn [markDiscovered List.map]; constructor.
  - destruct (id l =? i); [reflexivity | trivial].
  - exact IH.
Qed.

Lemma markDiscovered_twice (i : Z) (ls : list Landmark) :
  markDiscovered i (markDiscovered i ls) = markDiscovered i ls.
Proof.
  unfold markDiscovered. rewrite List.map_map. apply List.map_ext.
  intros l. destruct (id l =? i) eqn:E; cbn [setDiscovered id]; rewrite E;
    reflexivity.
Qed.

Lemma markDiscovered_swap (i j : Z) (ls : list Landmark) :
  markDiscovered i (markDiscovered j ls) =
  markDiscovered j (markDiscovered i ls).
Proof.
  unfold markDiscovered. rewrite !List.map_map. apply List.map_ext.
  intros l. destruct (id l =? i) eqn:Ei, (id l =? j) eqn:Ej;
    cbn [setDiscovered id]; rewrite ?Ei, ?Ej; reflexivity.
Qed.

Lemma markDiscovered_count (i : Z) (ls : list Landmark) :
  length (List.filter discovered (markDiscovered i ls)) =
  (length (List.filter discovered ls) +
   length (List.filter (fun l => (id l =? i)%Z && negb (discovered l)) ls))%nat.
Proof.
  induction ls as [|l ls IH]; [reflexivity|].
  cbn [markDiscovered List.map List.filter]. fold (markDiscovered i ls).
  destruct (id l =? i) eqn:E, (discovered l) eqn:D;
    cbn [setDiscovered discovered andb negb length]; rewrite ?D;
    cbn [length]; rewrite IH; lia.
Qed.

Lemma filter_length_le {A} (f : A -> bool) (l : list A) :
  (length (List.filter f l) <= length l)%nat.
Proof.
  induction l as [|a l IH]; cbn [List.filter length]; [lia|].
  destruct (f a); cbn [length]; lia.
Qed.

Lemma discoveredCount_all (ls : list Landmark) :
  length (List.filter discovered ls) = length ls <->
  Forall (fun l => discovered l = true) ls.
Proof.
  induction ls as [|l ls IH]; cbn [List.filter length].
  - split; [constructor | reflexivity].
  - pose proof (filter_length_le discovered ls) as Hle.
    destruct (discovered l) eqn:D; cbn [length]; split.
    + intros H. constructor; [exact D | apply IH; lia].
    + intros H. inversion H; subst. f_equal. apply IH. assumption.
    + intros H. lia.
    + intros H. inversion H; subst. congruence.
Qed.

(** X1. Completing a discovery twice is the same as completing it once, and
    two completions can be made in either order. *)
Theorem handleDiscoveryComplete_idempotent_commutes (i j : Z) (s : State) :
  handleDiscoveryComplete i (handleDiscoveryComplete i s) =
    handleDiscoveryComplete i s /\
  handleDiscoveryComplete i (handleDiscoveryComplete j s) =
    handleDiscoveryComplete j (handleDiscoveryComplete i s).
Proof.
  unfold handleDiscoveryComplete. cbn [landmarks selectedLandmark showDetail
    landmarkToShow showMuseum]. split.
  - rewrite markDiscovered_twice. reflexivity.
  - rewrite markDiscovered_swap. reflexivity.
Qed.

(** X2. A completion raises the header's discovered count by the number of
    landmarks with that id that were not yet discovered, never lowers it,
    leaves the total as it was, and the count never exceeds the total. *)
Theorem discoveredCount_handleDiscoveryComplete (i : Z) (s : State) :
  discoveredCount (handleDiscoveryComplete i s) =
    (discoveredCount s +
     length (List.filter (fun l => (id l =? i)%Z && negb (discovered l))
                         (landmarks s)))%nat /\
  totalCount (handleDiscoveryComplete i s) = totalCount s /\
  (discoveredCount (handleDiscoveryComplete i s) <=
   totalCount (handleDiscoveryComplete i s))%nat.
Proof.
  unfold discoveredCount, totalCount. cbn [handleDiscoveryComplete landmarks].
  split; [apply markDiscovered_count|].
  split; [apply markDiscovered_length | apply filter_length_le].
Qed.

Example discoveredCount_initial :
  discoveredCount initialState = 2%nat /\
  discoveredCount (handleDiscoveryComplete 4 initialState) = 3%nat /\
  discoveredCount (handleDiscoveryComplete 1 initialState) = 2%nat /\
  discoveredCount (handleDiscoveryComplete 9 initialState) = 2%nat.
Proof. repeat split; reflexivity. Qed.

Lemma scanNext_found (s : State) (u : Landmark) :
  firstUndiscovered (landmarks s) = Some u ->
  scanNext s = handleDiscoveryComplete (id u) (launchScanner u s).
Proof.
  intros H. unfold scanNext, floatingCameraClick. rewrite H. reflexivity.
Qed.

Lemma scanNext_progress (s : State) (u : Landmark) :
  firstUndiscovered (landmarks s) = Some u ->
  (discoveredCount s < discoveredCount (scanNext s))%nat /\
  totalCount (scanNext s) = totalCount s.
Proof.
  intros H. rewrite (scanNext_found s u H).
  unfold discoveredCount, totalCount.
  cbn [handleDiscoveryComplete launchScanner landmarks].
  rewrite markDiscovered_count, markDiscovered_length.
  split; [|reflexivity].
  destruct (firstUndiscovered_split _ _ H) as (pre & post & -> & _ & Hu).
  assert (Hpos : (1 <= length (List.filter
                    (fun l => (id l =? id u)%Z && negb (discovered l))
                    (pre ++ u :: post)))%nat).
  { rewrite List.filter_app, List.length_app. cbn [List.filter]. cbv beta.
    rewrite Z.eqb_refl, Hu. cbn [andb negb length]. lia. }
  lia.
Qed.

Lemma markDiscovered_all_discovered (i : Z) (ls : list Landmark) :
  Forall (fun l => discovered l = true) ls -> markDiscovered i ls = ls.
Proof.
  induction 1 as [|l ls Hl _ IH]; [reflexivity|].
  cbn [markDiscovered List.map]. fold (markDiscovered i ls). rewrite IH.
  destruct (id l =? i); [rewrite (setDiscovered_discovered l Hl)|];
    reflexivity.
Qed.

Lemma firstUndiscovered_none (ls : list Landmark) :
  firstUndiscovered ls = None -> Forall (fun l => discovered l = true) ls.
Proof.
  unfold firstUndiscovered. intros H. apply List.Forall_forall. intros l Hin.
  pose proof (find_none _ _ H l Hin) as Hn. cbn in Hn.
  destruct (discovered l); [reflexivity | discriminate].
Qed.

Lemma scanNext_done (s : State) :
  firstUndiscovered (landmarks s) = None ->
  landmarks (scanNext s) = landmarks s.
Proof.
  intros H. unfold scanNext, floatingCameraClick. rewrite H. cbv zeta.
  destruct (landmarkToScan s) as [l|]; [|reflexivity].
  cbn [handleDiscoveryComplete landmarks].
  apply markDiscovered_all_discovered, firstUndiscovered_none, H.
Qed.

(** X3. Pressing the camera button and letting the scanner complete, again
    and again, discovers every landmark: after as many rounds as there are
    undiscovered landmarks (or more) the discovered count is the total. *)
Theorem scanNext_discovers_all (n : nat) (s : State) :
  (totalCount s - discoveredCount s <= n)%nat ->
  discoveredCount (Nat.iter n scanNext s) = totalCount s /\
  Forall (fun l => discovered l = true) (landmarks (Nat.iter n scanNext s)).
Proof.
  assert (Hmain : forall n s, (totalCount s - discoveredCount s <= n)%nat ->
            discoveredCount (Nat.iter n scanNext s) = totalCount s /\
            totalCount (Nat.iter n scanNext s) = totalCount s).
  { clear n s. induction n as [|n IH]; intros s Hn.
    - change (Nat.iter 0 scanNext s) with s. split; [|reflexivity].
      pose proof (filter_length_le discovered (landmarks s)).
      unfold discoveredCount, totalCount in *. lia.
    - rewrite Nat.iter_succ_r.
      destruct (firstUndiscovered (landmarks s)) as [u|] eqn:Hf.
      + destruct (scanNext_progress s u Hf) as [Hlt Htot].
        destruct (IH (scanNext s)) as [H1 H2]; [lia|].
        rewrite H1, H2, Htot. split; reflexivity.
      + pose proof (scanNext_done s Hf) as Hsame.
        assert (Hall : discoveredCount s = totalCount s).
        { apply discoveredCount_all, firstUndiscovered_none, Hf. }
        destruct (IH (scanNext s)) as [H1 H2].
        { unfold discoveredCount, totalCount in *. rewrite Hsame. lia. }
        rewrite H1, H2. unfold totalCount. rewrite Hsame.
        split; reflexivity. }
  intros Hn. destruct (Hmain n s Hn) as [H1 H2]. split; [exact H1|].
  apply discoveredCount_all. unfold discoveredCount, totalCount in *.
  congruence.
Qed.

(** Three rounds on the page's initial state. *)
Lemma scanNext_discovers_all_witness :
  discoveredCount (Nat.iter 3 scanNext initialState) = totalCount initialState /\
  Forall (fun l => discovered l = true)
         (landmarks (Nat.iter 3 scanNext initialState)).
Proof. apply (scanNext_discovers_all 3 initialState). vm_compute. lia. Defined.

Lemma handle_consistent (e : Event) (s : State) :
  consistent s -> consistent (handle e s).
Proof.
  unfold consistent. intros (Hs & Hd & Hu & Ht).
  destruct e; cbn [handle].
  - destruct (nth_error (landmarks s) i); cbn; tauto.
  - cbn; tauto.
  - unfold learnMore. destruct (selectedLandmark s) as [l|]; [|tauto].
    destruct (discovered l) eqn:D; [|tauto]. cbn.
    split; [exact Hs|]. split; [split; congruence|].
    split; [exact Hu|]. intros l' E. congruence.
  - unfold scanToDiscover. destruct (selectedLandmark s) as [l|]; [|tauto].
    destruct (discovered l) eqn:D; [tauto|]. cbn.
    split; [split; congruence|]. split; [exact Hd|].
    split; [|exact Ht]. intros l' E. congruence.
  - unfold floatingCameraClick.
    destruct (firstUndiscovered (landmarks s)) as [u|] eqn:Hf; [|tauto].
    destruct (firstUndiscovered_split _ _ Hf) as (_ & _ & _ & _ & D). cbn.
    split; [split; congruence|]. split; [exact Hd|].
    split; [|exact Ht]. intros l' E. congruence.
  - cbn. split; [split; congruence|]. split; [exact Hd|].
    split; [|exact Ht]. intros l' E. congruence.
  - cbn. split; [split; congruence|]. split; [exact Hd|].
    split; [|exact Ht]. intros l' E. congruence.
  - cbn. split; [exact Hs|]. split; [split; congruence|].
    split; [exact Hu|]. intros l' E. congruence.
  - cbn; tauto.
  - cbn; tauto.
Qed.

Lemma run_app (es1 es2 : list Event) (s : State) :
  run (es1 ++ es2) s = run es2 (run es1 s).
Proof. unfold run. apply List.fold_left_app. Qed.

Lemma initialState_consistent : consistent initialState.
Proof.
  unfold consistent. cbn. repeat split; try congruence; try discriminate.
Qed.

(** X4. Whatever is clicked, in whatever order, the page stays consistent:
    a scanner landmark is set exactly when [showScanner] is, a detail
    landmark exactly when [showDetail] is, the landmark handed to the
    scanner had [discovered] false when it was picked and the one handed to
    the detail view had it true.  So the scanner is rendered exactly when
    [showScanner] is true. *)
Theorem run_consistent (events : list Event) (s : State) :
  consistent s ->
  consistent (run events s) /\
  scannerShown (run events s) = showScanner (run events s) /\
  detailShown (run events s) = showDetail (run events s).
Proof.
  intros H.
  assert (Hc : consistent (run events s)).
  { revert s H. induction events as [|e es IH]; intros s H; [exact H|].
    cbn [run fold_left]. apply IH, handle_consistent, H. }
  split; [exact Hc|]. destruct Hc as (Hs & Hd & _ & _).
  unfold scannerShown, detailShown. split.
  - destruct (showScanner (run events s)); [|reflexivity].
    destruct (landmarkToScan (run events s)); [reflexivity|].
    exfalso. apply (proj1 Hs); reflexivity.
  - destruct (showDetail (run events s)); [|reflexivity].
    destruct (landmarkToShow (run events s)); [reflexivity|].
    exfalso. apply (proj1 Hd); reflexivity.
Qed.

Lemma run_consistent_witness :
  consistent (run [ClickPin 2; ScanToDiscover; DiscoveryComplete 3;
                   ClickPin 0; LearnMore] initialState).
Proof.
  exact (proj1 (run_consistent
                  [ClickPin 2; ScanToDiscover; DiscoveryComplete 3;
                   ClickPin 0; LearnMore] initialState
                  initialState_consistent)).
Defined.

Lemma handle_landmarks (e : Event) (s : State) :
  landmarks (handle e s) = landmarks s \/
  exists i, landmarks (handle e s) = markDiscovered i (landmarks s).
Proof.
  destruct e; cbn [handle]; try (left; reflexivity).
  - left. destruct (nth_error (landmarks s) i); reflexivity.
  - left. unfold learnMore. destruct (selectedLandmark s) as [l|];
      [destruct (discovered l)|]; reflexivity.
  - left. unfold scanToDiscover. destruct (selectedLandmark s) as [l|];
      [destruct (discovered l)|]; reflexivity.
  - left. unfold floatingCameraClick.
    destruct (firstUndiscovered (landmarks s)); reflexivity.
  - right. exists landmarkId. reflexivity.
Qed.

Lemma flags_refl (ls : list Landmark) :
  Forall2 (fun a b => discovered a = true -> discovered b = true) ls ls.
Proof. induction ls; constructor; auto. Qed.

Lemma flags_trans (l1 l2 l3 : list Landmark) :
  Forall2 (fun a b => discovered a = true -> discovered b = true) l1 l2 ->
  Forall2 (fun a b => discovered a = true -> discovered b = true) l2 l3 ->
  Forall2 (fun a b => discovered a = true -> discovered b = true) l1 l3.
Proof.
  intros H. revert l3. induction H as [|a b l1 l2 Hab _ IH]; intros l3 H3;
    inversion H3; subst; constructor; auto.
Qed.

Lemma flags_count (l1 l2 : list Landmark) :
  Forall2 (fun a b => discovered a = true -> discovered b = true) l1 l2 ->
  (length (List.filter discovered l1) <= length (List.filter discovered l2))%nat.
Proof.
  induction 1 as [|a b l1 l2 Hab _ IH]; cbn [List.filter]; [lia|].
  destruct (discovered a) eqn:Da.
  - rewrite (Hab eq_refl). cbn [length]. lia.
  - destruct (discovered b); cbn [length]; lia.
Qed.

Lemma run_frame (events : list Event) (s : State) :
  List.map setDiscovered (landmarks (run events s)) =
    List.map setDiscovered (landmarks s) /\
  Forall2 (fun a b => discovered a = true -> discovered b = true)
          (landmarks s) (landmarks (run events s)).
Proof.
  revert s. induction events as [|e es IH]; intros s.
  - split; [reflexivity | apply flags_refl].
  - cbn [run fold_left]. destruct (IH (handle e s)) as [H1 H2].
    fold (run es (handle e s)) in H1, H2. fold (run es (handle e s)).
    destruct (handle_landmarks e s) as [E|[i E]]; rewrite E in H1, H2.
    + split; assumption.
    + rewrite markDiscovered_static in H1. split; [exact H1|].
      apply flags_trans with (markDiscovered i (landmarks s));
        [apply markDiscovered_flags | exact H2].
Qed.

(** X5. No sequence of clicks and callbacks adds, removes, reorders or
    edits a landmark: ids, names, positions, categories, years and
    distances stay as they were, a [discovered] flag that is true stays
    true, and the discovered count never goes down. *)
Theorem run_list_frame (events : list Event) (s : State) :
  List.map setDiscovered (landmarks (run events s)) =
    List.map setDiscovered (landmarks s) /\
  Forall2 (fun a b => discovered a = true -> discovered b = true)
          (landmarks s) (landmarks (run events s)) /\
  totalCount (run events s) = totalCount s /\
  (discoveredCount s <= discoveredCount (run events s))%nat.
Proof.
  destruct (run_frame events s) as [H1 H2].
  split; [exact H1|]. split; [exact H2|]. split.
  - unfold totalCount.
    rewrite <- (List.length_map setDiscovered (landmarks (run events s))), H1.
    apply List.length_map.
  - unfold discoveredCount. apply flags_count, H2.
Qed.

Lemma oldBridge_static (ls : list Landmark) :
  option_map setDiscovered
    (List.find (fun l => String.eqb (name l) "Old Town Bridge") ls) =
  List.find (fun l => String.eqb (name l) "Old Town Bridge")
            (List.map setDiscovered ls).
Proof.
  induction ls as [|l ls IH]; [reflexivity|].
  cbn [List.find List.map]. change (name (setDiscovered l)) with (name l).
  destruct (String.eqb (name l) "Old Town Bridge"); [reflexivity | exact IH].
Qed.

Lemma user_position_static (s s' : State) :
  List.map setDiscovered (landmarks s') = List.map setDiscovered (landmarks s) ->
  userX s' = userX s /\ userY s' = userY s.
Proof.
  intros H. unfold userX, userY, oldBridge.
  pose proof (oldBridge_static (landmarks s)) as E.
  pose proof (oldBridge_static (landmarks s')) as E'.
  rewrite H, <- E in E'.
  destruct (List.find _ (landmarks s)) as [b|],
           (List.find _ (landmarks s')) as [b'|];
    cbn [option_map] in E'; try discriminate; [|split; reflexivity].
  assert (E0 : setDiscovered b' = setDiscovered b) by congruence.
  assert (Hx : x b' = x b) by exact (f_equal x E0).
  assert (Hy : y b' = y b) by exact (f_equal y E0).
  rewrite Hx, Hy. split; reflexivity.
Qed.

(** X6. The user indicator does not move: whatever is clicked or
    discovered, it stays where it was, next to the first landmark named
    "Old Town Bridge" (6 to the right, 2 below) or at (50, 50) when there
    is none. *)
Theorem user_indicator_fixed (events : list Event) (s : State) :
  userX (run events s) = userX s /\ userY (run events s) = userY s.
Proof.
  apply user_position_static. apply (proj1 (run_frame events s)).
Qed.

Example user_indicator_initial :
  userX initialState = 68 /\ userY initialState = 16 /\
  userX (mkState None false None false None false []) = 50.
Proof. repeat split; reflexivity. Qed.

Local Open Scope Q_scope.

Lemma count_ratio (d t : nat) :
  (d <= S t)%nat ->
  0 <= inject_Z (Z.of_nat d) / inject_Z (Z.of_nat (S t)) * 100 <= 100 /\
  (inject_Z (Z.of_nat d) / inject_Z (Z.of_nat (S t)) * 100 == 100 <->
   d = S t).
Proof.
  intros Hle.
  assert (Ht : 0 < inject_Z (Z.of_nat (S t))).
  { change 0 with (inject_Z 0). rewrite <- Zlt_Qlt. lia. }
  assert (Hd : 0 <= inject_Z (Z.of_nat d)).
  { change 0 with (inject_Z 0). rewrite <- Zle_Qle. lia. }
  assert (Hdt : inject_Z (Z.of_nat d) <= inject_Z (Z.of_nat (S t))).
  { rewrite <- Zle_Qle. lia. }
  assert (Hr0 : 0 <= inject_Z (Z.of_nat d) / inject_Z (Z.of_nat (S t))).
  { apply Qle_shift_div_l; [exact Ht|]. rewrite Qmult_0_l. exact Hd. }
  assert (Hr1 : inject_Z (Z.of_nat d) / inject_Z (Z.of_nat (S t)) <= 1).
  { apply Qle_shift_div_r; [exact Ht|]. rewrite Qmult_1_l. exact Hdt. }
  split; [split|].
  - rewrite <- (Qmult_0_l 100). apply Qmult_le_compat_r; [exact Hr0|].
    discriminate.
  - apply Qle_trans with (1 * 100).
    + apply Qmult_le_compat_r; [exact Hr1 | discriminate].
    + rewrite Qmult_1_l. apply Qle_refl.
  - split.
    + intros E.
      assert (E1 : inject_Z (Z.of_nat d) / inject_Z (Z.of_nat (S t)) == 1).
      { apply (Qmult_inj_r _ _ 100); [discriminate|]. rewrite E. reflexivity. }
      assert (E2 : inject_Z (Z.of_nat d) == inject_Z (Z.of_nat (S t))).
      { rewrite <- (Qmult_div_r (inject_Z (Z.of_nat d))
                      (inject_Z (Z.of_nat (S t)))) by
          (intros E0; rewrite E0 in Ht; discriminate).
        rewrite E1. ring. }
      rewrite inject_Z_injective in E2. lia.
    + intros ->. field. intros E0. rewrite E0 in Ht. discriminate.
Qed.

(** X7. The progress bar is between 0% and 100% wide on a page with at
    least one landmark, 100% exactly when every landmark is discovered; on
    an empty list the width is not a number (0 / 0). *)
Theorem progressWidth_bounds (s : State) :
  (progressWidth s = None <-> landmarks s = []) /\
  (forall w, progressWidth s = Some w ->
     0 <= w <= 100 /\
     (w == 100 <-> Forall (fun l => discovered l = true) (landmarks s))).
Proof.
  unfold progressWidth, totalCount, discoveredCount.
  destruct (landmarks s) as [|l ls] eqn:E.
  - cbn [length]. split; [split; reflexivity | discriminate].
  - cbn [length]. split; [split; discriminate|].
    intros w [= <-].
    pose proof (filter_length_le discovered (l :: ls)) as Hle.
    cbn [length] in Hle.
    destruct (count_ratio _ _ Hle) as [Hb Hiff]. split; [exact Hb|].
    rewrite Hiff. apply (discoveredCount_all (l :: ls)).
Qed.

Lemma progressWidth_bounds_witness :
  0 <= inject_Z 2 / inject_Z 5 * 100 <= 100.
Proof.
  apply (proj2 (progressWidth_bounds initialState)
           (inject_Z 2 / inject_Z 5 * 100)).
  reflexivity.
Defined.

End ExplorePageFacts.

(** ** LocationService: bounds, invariances and range checks *)

Section LocationMoreFacts.

Import LocationService.
Local Open Scope R_scope.

Lemma atan_nonneg (y : R) : 0 <= y -> 0 <= atan y.
Proof.
  intros [Hy | <-].
  - left. rewrite <- atan_0. apply atan_increasing. exact Hy.
  - rewrite atan_0. lra.
Qed.

Lemma asin_nonneg (x : R) : 0 <= x <= 1 -> 0 <= asin x <= PI / 2.
Proof.
  intros [H0 H1]. split; [|apply asin_bound].
  destruct (Req_dec x 1) as [->|Hne].
  - rewrite asin_1. pose proof PI2_RGT_0. lra.
  - rewrite asin_atan by lra. apply atan_nonneg.
    assert (Hs : 0 < sqrt (1 - x²)).
    { apply sqrt_lt_R0. unfold Rsqr. nra. }
    apply Rmult_le_pos; [exact H0|]. left. apply Rinv_0_lt_compat, Hs.
Qed.

Lemma greatCircle_range (lat1 lon1 lat2 lon2 : R) :
  0 <= Haversine.hav (Haversine.rad lat2 - Haversine.rad lat1) +
       cos (Haversine.rad lat1) * cos (Haversine.rad lat2) *
       Haversine.hav (Haversine.rad lon2 - Haversine.rad lon1) <= 1.
Proof.
  pose proof (haversine_range (Haversine.rad lat1) (Haversine.rad lat2)
                (Haversine.rad lon2 - Haversine.rad lon1)) as H.
  cbv zeta in H. unfold Haversine.hav, Rsqr.
  match goal with
  | H : 0 <= ?a <= 1 |- 0 <= ?b <= 1 => replace b with a by ring
  end.
  exact H.
Qed.

Lemma calculateDistance_range (lat1 lon1 lat2 lon2 : R) :
  0 <= calculateDistance lat1 lon1 lat2 lon2 <= 6371000 * PI.
Proof.
  rewrite calculateDistance_haversine.
  unfold Haversine.greatCircle, Haversine.earthRadius. cbv zeta.
  pose proof (greatCircle_range lat1 lon1 lat2 lon2) as [H0 H1].
  set (h := Haversine.hav _ + _) in *.
  assert (Hs : 0 <= sqrt h <= 1).
  { split; [apply sqrt_pos|]. rewrite <- sqrt_1. apply sqrt_le_1_alt, H1. }
  pose proof (asin_nonneg _ Hs) as [Ha0 Ha1]. split; nra.
Qed.

(** X9. The range check is symmetric in the two positions and monotonic in
    the maximum distance; a negative maximum accepts nothing, and a
    position is within range of itself exactly when the maximum (100 m when
    omitted) is not negative. *)
Theorem isWithinRange_properties :
  (forall lat1 lon1 lat2 lon2 maxDistance,
     isWithinRange lat1 lon1 lat2 lon2 maxDistance =
     isWithinRange lat2 lon2 lat1 lon1 maxDistance) /\
  (forall lat1 lon1 lat2 lon2 m1 m2,
     m1 <= m2 ->
     isWithinRange lat1 lon1 lat2 lon2 (Some m1) = true ->
     isWithinRange lat1 lon1 lat2 lon2 (Some m2) = true) /\
  (forall lat1 lon1 lat2 lon2 m,
     m < 0 -> isWithinRange lat1 lon1 lat2 lon2 (Some m) = false) /\
  (forall lat lon maxDistance,
     isWithinRange lat lon lat lon maxDistance = true <->
     0 <= default 100 maxDistance).
Proof.
  unfold isWithinRange. cbv zeta. split; [|split; [|split]].
  - intros. rewrite calculateDistance_sym. reflexivity.
  - cbn [from_option]. unfold Datatypes.id.
    intros lat1 lon1 lat2 lon2 m1 m2 Hm H.
    apply Rleb_true in H. apply Rleb_true. lra.
  - cbn [from_option]. unfold Datatypes.id.
    intros lat1 lon1 lat2 lon2 m Hm. apply Rleb_false.
    pose proof (calculateDistance_range lat1 lon1 lat2 lon2). lra.
  - intros. rewrite calculateDistance_same. apply Rleb_true.
Qed.

Lemma isWithinRange_properties_witness :
  isWithinRange 0 (GeoScenario.lonAt 99) 0 0 (Some 250) = true.
Proof.
  refine (proj1 (proj2 isWithinRange_properties)
            0 (GeoScenario.lonAt 99) 0 0 100 250 _ _); [lra|].
  unfold isWithinRange. cbn [from_option]. unfold Datatypes.id.
  apply Rleb_true.
  rewrite calculateDistance_equator by (pose proof PI2_3_2; lra). lra.
Defined.

(** X10. Mirror images are as far apart as the points themselves:
    mirroring both points at the equator (negating the latitudes), at the
    prime meridian (negating the longitudes), or both, leaves the distance
    unchanged. *)
Theorem calculateDistance_mirror (lat1 lon1 lat2 lon2 : R) :
  calculateDistance (- lat1) lon1 (- lat2) lon2 =
    calculateDistance lat1 lon1 lat2 lon2 /\
  calculateDistance lat1 (- lon1) lat2 (- lon2) =
    calculateDistance lat1 lon1 lat2 lon2 /\
  calculateDistance (- lat1) (- lon1) (- lat2) (- lon2) =
    calculateDistance lat1 lon1 lat2 lon2.
Proof.
  unfold calculateDistance. cbv zeta.
  replace ((- lat2 - - lat1) * PI / 180 / 2)
    with (- ((lat2 - lat1) * PI / 180 / 2)) by field.
  replace ((- lon2 - - lon1) * PI / 180 / 2)
    with (- ((lon2 - lon1) * PI / 180 / 2)) by field.
  replace (- lat1 * PI / 180) with (- (lat1 * PI / 180)) by field.
  replace (- lat2 * PI / 180) with (- (lat2 * PI / 180)) by field.
  rewrite !sin_neg, !cos_neg.
  repeat split;
    match goal with
    | |- _ * (_ * atan2 (sqrt ?a1) _) = _ * (_ * atan2 (sqrt ?a2) _) =>
        replace a1 with a2 by ring
    end; reflexivity.
Qed.




End LocationMoreFacts.

(** ** LandmarkRecognitionService: keyword matching *)

Section RecognitionFacts.

Import Recognition.

Lemma includes_prefix (s p : string) :
  String.prefix p s = true -> includes s p = true.
Proof. intros H. destruct s; cbn [includes]; rewrite H; reflexivity. Qed.

Lemma includes_empty (s : string) : includes s "" = true.
Proof. destruct s; reflexivity. Qed.

Lemma split_head (sep : ascii) (s : string) :
  exists w ws, split sep s = w :: ws /\ String.prefix w s = true.
Proof.
  induction s as [|c rest (w & ws & E & Hp)]; cbn [split].
  - exists EmptyString, []. split; reflexivity.
  - destruct (Ascii.eqb c sep).
    + exists EmptyString, (split sep rest). split; reflexivity.
    + rewrite E. exists (String c w), ws. split; [reflexivity|].
      cbn [String.prefix]. destruct (ascii_dec c c); [exact Hp | contradiction].
Qed.

Lemma split_app (sep : ascii) (a b : string) :
  split sep (a ++ String sep b) = (split sep a ++ split sep b)%list.
Proof.
  induction a as [|c a IH].
  - change (String.append EmptyString (String sep b)) with (String sep b).
    cbn [split]. rewrite Ascii.eqb_refl. reflexivity.
  - change (String.append (String c a) (String sep b))
      with (String c (String.append a (String sep b))).
    cbn [split]. destruct (Ascii.eqb c sep); rewrite IH; [reflexivity|].
    destruct (split_head sep a) as (w & ws & E & _). rewrite E. reflexivity.
Qed.

Lemma matches_of_empty_keyword (toLowerCase : string -> string)
  (prediction landmarkName : string) :
  In EmptyString (split " " (toLowerCase landmarkName)) ->
  matchesLandmark toLowerCase prediction landmarkName = true.
Proof.
  intros H. unfold matchesLandmark. cbv zeta. apply existsb_exists.
  exists EmptyString. split; [exact H | apply includes_empty].
Qed.

(** X12. Every landmark name matches itself as a prediction, whatever
    [toLowerCase] does: the first keyword of a name starts the name. *)
Theorem matchesLandmark_self (toLowerCase : string -> string)
  (landmarkName : string) :
  matchesLandmark toLowerCase landmarkName landmarkName = true.
Proof.
  unfold matchesLandmark. cbv zeta.
  destruct (split_head " " (toLowerCase landmarkName)) as (w & ws & E & Hp).
  rewrite E. cbn [existsb]. rewrite (includes_prefix _ _ Hp). reflexivity.
Qed.

(** X13. A name whose lower-cased form is empty, begins with a space or
    ends with a space has an empty keyword, and then every prediction
    matches it, whatever the classifier saw. *)
Theorem matchesLandmark_empty_keyword (toLowerCase : string -> string)
  (landmarkName : string) :
  toLowerCase landmarkName = EmptyString \/
  (exists rest, toLowerCase landmarkName = String " " rest) \/
  (exists front, toLowerCase landmarkName = (front ++ " ")%string) ->
  forall prediction,
    matchesLandmark toLowerCase prediction landmarkName = true.
Proof.
  intros H prediction. apply matches_of_empty_keyword.
  destruct H as [E | [[rest E] | [front E]]]; rewrite E.
  - left. reflexivity.
  - cbn [split]. rewrite Ascii.eqb_refl. left. reflexivity.
  - rewrite split_app. apply List.in_or_app. right. left. reflexivity.
Qed.

Lemma matchesLandmark_empty_keyword_witness :
  matchesLandmark lowerCase "tabby cat" "Old Town " = true.
Proof.
  apply (matchesLandmark_empty_keyword lowerCase "Old Town ").
  right. right. exists "old town"%string. reflexivity.
Defined.

(** Keywords match inside words: "old" occurs in "golden". *)
Example matchesLandmark_golden :
  matchesLandmark lowerCase "Golden Retriever" "Old Town Bridge" = true /\
  matchesLandmark lowerCase "tabby cat" "Old Town Bridge" = false.
Proof. split; reflexivity. Qed.

(** X14. Before [initialize] the call throws.  Afterwards [success] says
    whether some prediction of the classifier, at any rank, matches the
    expected landmark; [confidence] is 0 when none does, and otherwise the
    probability of a matching prediction (or 0); the predictions returned
    are the first three. *)
Theorem recognizeLandmark_result {Image : Type}
  (toLowerCase : string -> string) (classify : Image -> list Prediction)
  (imageElement : Image) (expectedLandmark : string) :
  recognizeLandmark toLowerCase None imageElement expectedLandmark =
    inl "Model not initialized"%string /\
  exists r,
    recognizeLandmark toLowerCase (Some classify) imageElement
                      expectedLandmark = inr r /\
    (success r = true <->
     exists p, In p (classify imageElement) /\
               matchesLandmark toLowerCase (className p) expectedLandmark
               = true) /\
    (success r = false -> confidence r = 0%Q) /\
    (confidence r = 0%Q \/
     exists p, In p (classify imageElement) /\
               matchesLandmark toLowerCase (className p) expectedLandmark
               = true /\
               confidence r = probability p) /\
    predictions r = firstn 3 (classify imageElement) /\
    (length (predictions r) <= 3)%nat.
Proof.
  split; [reflexivity|]. unfold recognizeLandmark. cbv zeta.
  eexists. split; [reflexivity|]. cbn [success confidence predictions].
  destruct (List.find _ (classify imageElement)) as [m|] eqn:Hf.
  - destruct (find_some _ _ Hf) as [Hin Hm].
    split; [split; [intros _; exists m; split; assumption | reflexivity]|].
    split; [discriminate|]. split.
    + destruct (Qeq_bool (probability m) 0); [left; reflexivity|].
      right. exists m. repeat split; assumption.
    + split; [reflexivity | apply List.firstn_le_length].
  - split.
    + split; [discriminate|]. intros (p & Hin & Hp).
      pose proof (find_none _ _ Hf p Hin) as Hn. cbv beta in Hn. congruence.
    + split; [reflexivity|]. split; [left; reflexivity|].
      split; [reflexivity | apply List.firstn_le_length].
Qed.

(** The match may lie beyond the three predictions that are returned. *)
Example recognizeLandmark_match_at_rank_4 :
  let classify := fun _ : unit =>
    [mkPrediction "tabby cat" (1 # 2); mkPrediction "castle" (1 # 4);
     mkPrediction "church" (1 # 8); mkPrediction "suspension bridge" (1 # 16)] in
  match recognizeLandmark lowerCase (Some classify) tt "Old Town Bridge" with
  | inr r =>
      success r = true /\ confidence r = (1 # 16)%Q /\
      map className (predictions r) = ["tabby cat"; "castle"; "church"]%string
  | inl _ => False
  end.
Proof. cbv zeta. repeat split; reflexivity. Qed.

End RecognitionFacts.

(** ** CameraService: streams and tracks *)

Section CameraFacts.

Import CameraService.

(** X15. [startCamera] answers true only when the video plays.  When the
    camera was granted and playing failed it answers false and still holds
    the stream, its tracks live.  Whatever it answered, a [stopCamera]
    afterwards clears the stream, leaves none of the granted tracks live,
    and a second [stopCamera] changes nothing. *)
Theorem startCamera_then_stop (attempt : Attempt) (c : Camera) :
  let ok := fst (startCamera attempt c) in
  let c1 := snd (startCamera attempt c) in
  (ok = true <-> exists tracks, attempt = Playing tracks) /\
  (forall tracks,
     attempt = PlayFailed tracks ->
     ok = false /\ stream c1 = Some tracks /\
     forall t, t ∈ tracks -> t ∈ live c1) /\
  stream (stopCamera c1) = None /\
  (forall tracks t,
     attempt = PlayFailed tracks \/ attempt = Playing tracks ->
     t ∈ tracks -> t ∉ live (stopCamera c1)) /\
  stopCamera (stopCamera c1) = stopCamera c1.
Proof.
  cbv zeta. destruct attempt as [|ts|ts]; cbn [startCamera fst snd].
  - split; [split; [discriminate | intros [ts H]; discriminate H]|].
    split; [intros ts H; discriminate H|].
    unfold stopCamera. destruct (stream c) eqn:E; cbn [stream live].
    + split; [reflexivity|].
      split; [intros ts t [H|H]; discriminate H | reflexivity].
    + split; [exact E|].
      split; [intros ts t [H|H]; discriminate H | rewrite E; reflexivity].
  - split; [split; [discriminate | intros [ts' H]; discriminate H]|].
    split.
    { intros ts' H. injection H as <-. cbn [stream live].
      repeat split. set_solver. }
    unfold stopCamera. cbn [stream live]. split; [reflexivity|].
    split; [|reflexivity].
    intros ts' t [H|H] Ht; [injection H as <- | discriminate H]. set_solver.
  - split; [split; [intros _; exists ts; reflexivity | reflexivity]|].
    split; [intros ts' H; discriminate H|].
    unfold stopCamera. cbn [stream live]. split; [reflexivity|].
    split; [|reflexivity].
    intros ts' t [H|H] Ht; [discriminate H | injection H as <-]. set_solver.
Qed.

(** X16. [startCamera] does not stop a stream the service already holds:
    after two grants in a row, [stopCamera] stops the second stream only,
    and every track of the first that is not also in the second stays live
    with no reference to it left in the service. *)
Theorem startCamera_twice_leaks (first second : Attempt) (c : Camera)
  (tracks1 tracks2 : list nat) (t : nat) :
  first = PlayFailed tracks1 \/ first = Playing tracks1 ->
  second = PlayFailed tracks2 \/ second = Playing tracks2 ->
  t ∈ tracks1 -> t ∉ tracks2 ->
  let c2 := snd (startCamera second (snd (startCamera first c))) in
  t ∈ live (stopCamera c2) /\
  stream (stopCamera c2) = None /\
  t ∈ live (stopCamera (stopCamera c2)).
Proof.
  intros [-> | ->] [-> | ->] H1 H2; cbv zeta;
    cbn [startCamera snd stopCamera stream live]; repeat split; set_solver.
Qed.

Lemma startCamera_twice_leaks_witness :
  1%nat ∈ live (stopCamera
                  (snd (startCamera (Playing [2%nat])
                          (snd (startCamera (Playing [1%nat])
                                  (mkCamera None ∅)))))).
Proof.
  refine (proj1 (startCamera_twice_leaks (Playing [1%nat]) (Playing [2%nat])
                   (mkCamera None ∅) [1%nat] [2%nat] 1%nat _ _ _ _)).
  - right. reflexivity.
  - right. reflexivity.
  - set_solver.
  - set_solver.
Defined.

End CameraFacts.

(** ** Discovery scanner: how the draws map to amounts *)

Section ScannerMoreFacts.

Import Scanner.
Local Open Scope Q_scope.

Lemma Qfloor_eq_iff (q : Q) (k : Z) :
  Qfloor q = k <-> inject_Z k <= q /\ q < inject_Z (k + 1).
Proof.
  split.
  - intros <-. split; [apply Qfloor_le | apply Qlt_floor].
  - intros [Hlo Hhi].
    assert (H1 : (k <= Qfloor q)%Z).
    { rewrite <- (Qfloor_Z k). apply Qfloor_resp_le, Hlo. }
    assert (H2 : inject_Z (Qfloor q) < inject_Z (k + 1)).
    { apply Qle_lt_trans with q; [apply Qfloor_le | exact Hhi]. }
    rewrite <- Zlt_Qlt in H2. lia.
Qed.

Lemma div50_le_100_nonneg (k : Z) : (0 <= k)%Z -> 0 <= inject_Z k / 100.
Proof.
  intros H. apply Qle_shift_div_l; [reflexivity|].
  rewrite Qmult_0_l. change 0 with (inject_Z 0). rewrite <- Zle_Qle. exact H.
Qed.

Lemma div100_lt_1 (k : Z) : (k < 100)%Z -> inject_Z k / 100 < 1.
Proof.
  intros H. apply Qlt_shift_div_r; [reflexivity|].
  rewrite Qmult_1_l. change 100 with (inject_Z 100). rewrite <- Zlt_Qlt.
  exact H.
Qed.

(** X17. The amount grows with the draw, and every amount from 50 to 99
    is awarded: the draw in the middle of the [n]-th fiftieth of the unit
    interval, [(2 n - 99) / 100], is a possible result of [Math.random()]
    and gives exactly [n]. *)
Theorem xp_monotone_onto (random random' : Q) (n : Z) :
  (random <= random' -> (xp random <= xp random')%Z) /\
  ((50 <= n <= 99)%Z ->
   0 <= inject_Z (2 * n - 99) / 100 < 1 /\
   xp (inject_Z (2 * n - 99) / 100) = n).
Proof.
  unfold xp. split.
  - intros H.
    assert (Hm : random * 50 <= random' * 50)
      by (apply Qmult_le_compat_r; [exact H | discriminate]).
    pose proof (Qfloor_resp_le _ _ Hm). lia.
  - intros Hn.
    assert (E : inject_Z (2 * n - 99) / 100 * 50 ==
                inject_Z (n - 50) + (1 # 2)).
    { unfold Qeq, Qdiv, Qmult, Qplus, Qinv, inject_Z. cbn. lia. }
    split.
    + split.
      * apply div50_le_100_nonneg. lia.
      * apply div100_lt_1. lia.
    + assert (F : Qfloor (inject_Z (2 * n - 99) / 100 * 50) = (n - 50)%Z).
      { apply Qfloor_eq_iff. rewrite E, inject_Z_plus. split.
        - rewrite <- (Qplus_0_r (inject_Z (n - 50))) at 1.
          apply Qplus_le_r. discriminate.
        - apply Qplus_lt_r. reflexivity. }
      rewrite F. lia.
Qed.

Lemma xp_monotone_onto_witness : xp (inject_Z (2 * 62 - 99) / 100) = 62%Z.
Proof. apply (proj2 (xp_monotone_onto 0 0 62)). lia. Defined.

End ScannerMoreFacts.

(** ** Integration example: what starts the scan *)

Section IntegrationFacts.

Import ScannerIntegration.

(** X18. The effect sets the state to [scanning] exactly when the model
    loads, a position is obtained and it is within the landmark's radius;
    whether the camera could be started plays no part, and the camera is
    started (when the video element exists) before any of this is known,
    so it is already running for a user who turns out to be too far. *)
Theorem initializeServices_scanning (hasVideo : bool)
  (attempt : CameraService.Attempt) (modelLoads : bool)
  (position : option LocationService.Coords)
  (landmark : LocationService.Landmark) (s : Services) :
  let s' := initializeServices hasVideo attempt modelLoads position landmark s in
  scanningState s <> scanning ->
  (scanningState s' = scanning <->
   modelLoads = true /\
   exists coords, position = Some coords /\
                  LocationService.isNearby coords landmark = true) /\
  (forall attempt',
     scanningState (initializeServices hasVideo attempt' modelLoads position
                                       landmark s) = scanningState s') /\
  camera s' =
    (if hasVideo then snd (CameraService.startCamera attempt (camera s))
     else camera s).
Proof.
  cbv zeta. intros Hs. unfold initializeServices. cbv zeta.
  destruct modelLoads; cbn [negb].
  - destruct position as [coords|].
    + destruct (LocationService.isNearby coords landmark) eqn:E; cbn [negb];
        cbn [scanningState camera].
      * split; [|split; reflexivity].
        split; [intros _; split; [reflexivity|]; exists coords; split;
                [reflexivity | exact E] | reflexivity].
      * split; [|split; reflexivity].
        split; [intros H; contradiction|].
        intros (_ & coords' & [= <-] & H). congruence.
    + cbn [scanningState camera]. split; [|split; reflexivity].
      split; [intros H; contradiction | intros (_ & coords & [=] & _)].
  - cbn [scanningState camera]. split; [|split; reflexivity].
    split; [intros H; contradiction | intros ([=] & _)].
Qed.

(** A user 150 m from a landmark of radius 100 m whose camera was granted:
    the state stays [initializing] and the camera's track is live. *)
Lemma initializeServices_scanning_witness :
  scanningState
    (initializeServices true (CameraService.Playing [7%nat]) true
       (Some (GeoScenario.claimAt 150 10)) (GeoScenario.landmarkAtOrigin 100)
       (mkServices (CameraService.mkCamera None ∅) false initializing))
    = initializing /\
  7%nat ∈ CameraService.live
    (camera
       (initializeServices true (CameraService.Playing [7%nat]) true
          (Some (GeoScenario.claimAt 150 10)) (GeoScenario.landmarkAtOrigin 100)
          (mkServices (CameraService.mkCamera None ∅) false initializing))).
Proof.
  pose proof (initializeServices_scanning true (CameraService.Playing [7%nat])
                true (Some (GeoScenario.claimAt 150 10))
                (GeoScenario.landmarkAtOrigin 100)
                (mkServices (CameraService.mkCamera None ∅) false initializing))
    as H.
  cbv zeta in H. destruct H as (Hiff & _ & Hcam); [discriminate|].
  split.
  - destruct (scanningState _) eqn:E; try reflexivity;
      try (unfold initializeServices in E; cbv zeta in E; cbn [negb] in E;
           destruct (negb (LocationService.isNearby _ _)) in E;
           discriminate E).
    exfalso. destruct (proj1 Hiff eq_refl) as (_ & coords & [= <-] & Hn).
    rewrite isNearby_claimAt in Hn by (pose proof PI2_3_2; lra).
    apply Rleb_true in Hn. lra.
  - rewrite Hcam. cbn. set_solver.
Defined.

End IntegrationFacts.
